(** * AlmeriaVB: the course notebooks, embedded and verified

    The notebooks of the repository are short numerical scripts.  Two of
    them carry the functions studied here:

    - the maximum-likelihood notebook (gradient ascent on a Gaussian
      log-likelihood): [data_generator] and [calculate_gradient];
    - the moment/information projection notebook
      ([students_M_and_I_projections.ipynb]): [p_distribution_pdf],
      [q_distribution_pdf], [optimize_parameters] and its inner objective
      [calculate_KL_for_given_parameters].

    The last part also covers the rest of the maximum-likelihood
    notebook (learning-rate schedule, log-likelihood, the iterations) and
    the Gaussian part of the exponential-family notebook.

    Numeric convention.  A Python or NumPy float is modelled by a real
    number: rounding, overflow and underflow are not modelled.  Where the
    source can produce the IEEE special values (a scale [<= 0] handed to
    [norm.pdf], a division by zero, the logarithm of zero) the value type
    [Np.float] carries them explicitly. *)

From Stdlib Require Import String Bool ZArith List Reals Lra Lia.
Import ListNotations.

(* ================================================================== *)
(** * Part I: definitions                                              *)
(* ================================================================== *)

(** ** Python sequences *)

Module Py.

(** Normalisation of one slice bound against a sequence of length [L]:
    a negative index counts from the end, and every index is clipped to
    [0 .. L]. *)
Definition clip_index (L i : Z) : Z :=
  if (i <? 0)%Z then Z.max (i + L) 0 else Z.min i L.

(** [a[lo:hi]] with unit stride; [None] is an omitted bound. *)
Definition slice {A : Type} (a : list A) (lo hi : option Z) : list A :=
  let L := Z.of_nat (length a) in
  let lo' := match lo with None => 0%Z | Some i => clip_index L i end in
  let hi' := match hi with None => L | Some i => clip_index L i end in
  firstn (Z.to_nat (hi' - lo')) (skipn (Z.to_nat lo') a).

(** [xs[i]] for a non-negative index known to the caller; [None] stands
    for [IndexError]. *)
Definition item {A : Type} (xs : list A) (i : nat) : option A := nth_error xs i.

End Py.

(** ** The maximum-likelihood notebook *)

Module MaxLikelihood.

Section Generator.
Context {A : Type}.

(** One turn of the [while True] loop of [data_generator]: from the
    pointer [start] it computes the batch that is yielded and the pointer
    the next turn starts from. *)
Definition data_generator_step (array : list A) (batch_size start : Z)
  : list A * Z :=
  let stop := (start + batch_size)%Z in
  let diff := (stop - Z.of_nat (length array))%Z in
  if (diff <=? 0)%Z then
    (Py.slice array (Some start) (Some stop), (start + batch_size)%Z)
  else
    (Py.slice array (Some start) None ++ Py.slice array None (Some diff), diff).

(** The batches produced by the first [n] calls of [next] on a generator
    whose pointer is [start]. *)
Fixpoint batches_from (array : list A) (batch_size : Z) (n : nat) (start : Z)
  : list (list A) :=
  match n with
  | O => []
  | S n' =>
      let '(batch, start') := data_generator_step array batch_size start in
      batch :: batches_from array batch_size n' start'
  end.

(** [data_generator(array, batch_size)]: the pointer starts at 0. *)
Definition data_generator (array : list A) (batch_size : Z) (n : nat)
  : list (list A) :=
  batches_from array batch_size n 0%Z.

End Generator.

Open Scope R_scope.

(** [np.sum] of a vector of floats. *)
Definition np_sum (v : list R) : R := fold_right Rplus 0 v.

(** [calculate_gradient(N, _data, _mu, _tau)].  The result is the pair
    (natural_gradient, euclidean_gradient), each a two-element array
    (component for mu first, then for tau).  [None] stands for the two
    divisions by zero of the body: [N / _data.shape[0]] on an empty batch
    and the divisions by [_tau] when it is zero. *)
Definition calculate_gradient (N : R) (_data : list R) (_mu _tau : R)
  : option ((R * R) * (R * R)) :=
  if Req_dec_T _tau 0 then None else
  match _data with
  | [] => None
  | _ =>
      let partial_mu := _tau * np_sum (map (fun x => x - _mu) _data) in
      let partial_tau :=
        0.5 * INR (length _data) / _tau
        - 0.5 * np_sum (map (fun x => Rsqr (x - _mu)) _data) in
      let euclidean_gradient :=
        (N / INR (length _data) * partial_mu,
         N / INR (length _data) * partial_tau) in
      let partial_mu' := partial_mu / _tau in
      let partial_tau' := partial_tau * 2 * _tau * _tau in
      let natural_gradient := (partial_mu', partial_tau') in
      Some (natural_gradient, euclidean_gradient)
  end.

End MaxLikelihood.

(** ** NumPy floats and one-dimensional arrays *)

Module Np.
Open Scope R_scope.

(** A float64 value: a real number or one of the IEEE special values.
    Zero carries no sign: a non-zero finite value divided by zero is the
    infinity that has the sign of the numerator. *)
Inductive float : Type :=
| Fin (r : R)
| PInf
| NInf
| NaN.

Definition add (a b : float) : float :=
  match a, b with
  | NaN, _ | _, NaN => NaN
  | Fin x, Fin y => Fin (x + y)
  | PInf, NInf | NInf, PInf => NaN
  | PInf, _ | _, PInf => PInf
  | NInf, _ | _, NInf => NInf
  end.

Definition mul (a b : float) : float :=
  match a, b with
  | NaN, _ | _, NaN => NaN
  | Fin x, Fin y => Fin (x * y)
  | Fin x, PInf | PInf, Fin x =>
      if Req_dec_T x 0 then NaN else if Rlt_dec 0 x then PInf else NInf
  | Fin x, NInf | NInf, Fin x =>
      if Req_dec_T x 0 then NaN else if Rlt_dec 0 x then NInf else PInf
  | PInf, PInf | NInf, NInf => PInf
  | PInf, NInf | NInf, PInf => NInf
  end.

Definition div (a b : float) : float :=
  match a, b with
  | NaN, _ | _, NaN => NaN
  | Fin x, Fin y =>
      if Req_dec_T y 0 then
        if Req_dec_T x 0 then NaN else if Rlt_dec 0 x then PInf else NInf
      else Fin (x / y)
  | Fin _, (PInf | NInf) => Fin 0
  | PInf, Fin y => if Rlt_dec y 0 then NInf else PInf
  | NInf, Fin y => if Rlt_dec y 0 then PInf else NInf
  | (PInf | NInf), (PInf | NInf) => NaN
  end.

(** [np.log]: minus infinity at zero, NaN below. *)
Definition log (a : float) : float :=
  match a with
  | Fin x => if Rlt_dec 0 x then Fin (ln x) else if Req_dec_T x 0 then NInf else NaN
  | PInf => PInf
  | NInf | NaN => NaN
  end.

(** [np.maximum]: the larger of the two, NaN as soon as one of them is. *)
Definition maximum (a b : float) : float :=
  match a, b with
  | NaN, _ | _, NaN => NaN
  | PInf, _ | _, PInf => PInf
  | NInf, c | c, NInf => c
  | Fin x, Fin y => Fin (Rmax x y)
  end.

(** [np.sum] of a one-dimensional array. *)
Definition sum (v : list float) : float := fold_right add (Fin 0) v.

(** An elementwise binary operation on two one-dimensional arrays, with
    NumPy's broadcasting: the lengths agree, or one of the arrays has a
    single element; otherwise the operation raises ([None]). *)
Definition elementwise (op : float -> float -> float) (a b : list float)
  : option (list float) :=
  if Nat.eqb (length a) (length b) then
    Some (map (fun ab => op (fst ab) (snd ab)) (combine a b))
  else
    match a, b with
    | [x], _ => Some (map (op x) b)
    | _, [y] => Some (map (fun x => op x y) a)
    | _, _ => None
    end.

(** [np.arange(start, stop, step)]: [ceil((stop - start) / step)] points
    (none when that is not positive), the [i]-th being [start + i * step];
    a zero step raises ([None]). *)
Definition arange (start stop step : R) : option (list R) :=
  if Req_dec_T step 0 then None
  else
    Some (map (fun i => start + INR i * step)
              (seq 0 (Z.to_nat (Zceil ((stop - start) / step))))).

End Np.

(** ** The SciPy functions the notebook calls *)

Module Scipy.
Open Scope R_scope.

(** The standard normal density, [exp(-z**2 / 2) / sqrt(2 * pi)]. *)
Definition std_norm_pdf (z : R) : R := exp (- (z * z) / 2) / sqrt (2 * PI).

(** [scipy.stats.norm.pdf(x, loc=loc, scale=scale)] on an array [x]: the
    standardised density divided by the scale where the scale is
    positive; where the argument check [scale > 0] fails the entry is
    NaN. *)
Definition norm_pdf (x : list R) (loc scale : R) : list Np.float :=
  map (fun xi =>
         if Rlt_dec 0 scale
         then Np.Fin (std_norm_pdf ((xi - loc) / scale) / scale)
         else Np.NaN) x.

(** The arguments of one call of [scipy.optimize.minimize]: the function
    to minimise, one (lower, upper) pair per parameter ([None] for no
    bound) and the starting point. *)
Record minimize_call : Type := {
  call_fun : list R -> option Np.float;
  call_bounds : list (option R * option R);
  call_x0 : list R
}.

(** The [OptimizeResult] the minimiser hands back. *)
Record OptimizeResult : Type := {
  res_x : list R;
  res_fun : Np.float;
  res_success : bool
}.

End Scipy.

(** ** The projection notebook *)

Module Projection.
Import Np Scipy.
Open Scope R_scope.
Open Scope string_scope.

(** Keyword arguments ([**kwargs]): names with their values. *)
Definition kwargs : Type := list (string * R).

(** [kwargs.get(key)]; [None] is Python's [None]. *)
Fixpoint kwargs_get (key : string) (kw : kwargs) : option R :=
  match kw with
  | [] => None
  | (k, v) :: rest => if String.eqb key k then Some v else kwargs_get key rest
  end.

(** The common interface of the two densities: an array of points and
    keyword arguments to an array of values; [None] when the call
    raises. *)
Definition density : Type := list R -> kwargs -> option (list float).

Definition bind {A B : Type} (a : option A) (k : A -> option B) : option B :=
  match a with
  | Some x => k x
  | None => None
  end.

Notation "x <- a ;; k" := (bind a (fun x => k))
  (at level 61, a at next level, right associativity).

(** [p_distribution_pdf(x, **kwargs)]: the target mixture. *)
Definition p_distribution_pdf : density := fun x _ =>
  let w := 0.1 in
  let mean1 := 1 in
  let stddev1 := 0.5 in
  let mean2 := 10 in
  let stddev2 := 3 in
  elementwise add
    (map (mul (Fin w)) (norm_pdf x mean1 stddev1))
    (map (mul (Fin (1 - w))) (norm_pdf x mean2 stddev2)).

(** [q_distribution_pdf(x, **kwargs)]: the approximating Gaussian.  With
    [loc] or [scale] absent, [kwargs.get] gives [None] and [norm.pdf]
    raises on it. *)
Definition q_distribution_pdf : density := fun x kw =>
  loc <- kwargs_get "loc" kw ;;
  scale <- kwargs_get "scale" kw ;;
  Some (map (maximum (Fin 1e-6)) (norm_pdf x loc scale)).

(** The keyword arguments [loc=mu, scale=sigma] of a call of a density. *)
Definition params (mu sigma : R) : kwargs := [("loc", mu); ("scale", sigma)].

(** Modelled from the spec: the argument of [np.sum] in
    [calculate_KL_for_given_parameters], which the notebook leaves blank.
    Following section 4.2 and the function's docstring it is the array of
    the values [f(x_i) * log(f(x_i) / g(x_i))], both densities being
    called on the grid with [loc=mu] and [scale=sigma]. *)
Definition KL_summand (f g : density) (x_val : list R) (mu sigma : R)
  : option (list float) :=
  fx <- f x_val (params mu sigma) ;;
  gx <- g x_val (params mu sigma) ;;
  ratio <- elementwise div fx gx ;;
  elementwise mul fx (map log ratio).

(** The inner function of [optimize_parameters], closed over [f], [g]
    and [eps]. *)
Definition calculate_KL_for_given_parameters (f g : density) (eps : R)
    (parameters : list R) : option float :=
  mu <- Py.item parameters 0 ;;
  sigma <- Py.item parameters 1 ;;
  x_val <- arange (-25) 25 eps ;;
  terms <- KL_summand f g x_val mu sigma ;;
  Some (mul (Fin eps) (sum terms)).

(** A computation that may call [scipy.optimize.minimize]. *)
Inductive script (A : Type) : Type :=
| Return (a : A)
| Minimize (c : minimize_call) (k : OptimizeResult -> script A).
Arguments Return {A} a.
Arguments Minimize {A} c k.

(** [optimize_parameters(f, g, eps)]. *)
Definition optimize_parameters (f g : density) (eps : R) : script (list R) :=
  Minimize
    {| call_fun := calculate_KL_for_given_parameters f g eps;
       call_bounds := [(None, None); (Some 1E-2, None)];
       call_x0 := [0; 5] |}
    (fun optimum => Return (res_x optimum)).

(** Running a script against a minimiser: the value returned ([None] when
    the minimiser raised) and the calls made, in order. *)
Fixpoint run {A : Type} (minimize : minimize_call -> option OptimizeResult)
    (s : script A) : option A * list minimize_call :=
  match s with
  | Return a => (Some a, [])
  | Minimize c k =>
      match minimize c with
      | None => (None, [c])
      | Some r => let '(a, calls) := run minimize (k r) in (a, c :: calls)
      end
  end.

End Projection.

(** ** Closed forms used in the statements *)

Module Closed.
Import Np Scipy Projection.
Open Scope R_scope.

(** The integration grid of [calculate_KL_for_given_parameters] for a
    step [eps]: the value of [np.arange(-25, +25, eps)]. *)
Definition grid_size (eps : R) : nat := Z.to_nat (Zceil (50 / eps)).

Definition grid (eps : R) : list R :=
  map (fun i => -25 + INR i * eps) (seq 0 (grid_size eps)).

(** The value of a Gaussian density with a positive scale. *)
Definition gauss (loc scale xi : R) : R :=
  std_norm_pdf ((xi - loc) / scale) / scale.

(** The value of the target mixture at one point. *)
Definition mixture (xi : R) : R :=
  0.1 * gauss 1 0.5 xi + (1 - 0.1) * gauss 10 3 xi.

(** The value of the floored Gaussian at one point. *)
Definition floored_gauss (loc scale xi : R) : R :=
  Rmax 1e-6 (gauss loc scale xi).

(** One term of the Riemann sum for KL(p || q): the mixture against the
    floored Gaussian of parameters [mu] and [sigma]. *)
Definition moment_term (mu sigma xi : R) : R :=
  mixture xi * ln (mixture xi / floored_gauss mu sigma xi).

(** A finite entry that satisfies a predicate on its value. *)
Definition finite_with (P : R -> Prop) (v : float) : Prop :=
  exists r : R, v = Fin r /\ P r.

(** The estimate at a step is a finite number [k]. *)
Definition KL_value (f g : density) (mu sigma eps k : R) : Prop :=
  calculate_KL_for_given_parameters f g eps [mu; sigma] = Some (Fin k).

(** The change of the estimate under one halving of [eps] is at least the
    change under the next halving. *)
Definition halving_shrinks (f g : density) (mu sigma eps : R) : Prop :=
  forall k1 k2 k4 : R,
    KL_value f g mu sigma eps k1 ->
    KL_value f g mu sigma (eps / 2) k2 ->
    KL_value f g mu sigma (eps / 4) k4 ->
    Rabs (k2 - k1) >= Rabs (k4 - k2).

(** Two artificial densities of the common interface, used to show that
    the bound on the step in the halving property cannot be lowered: one
    is constantly 1, the other is 1 except at [x0], where it is 2. *)
Definition unit_density : density :=
  fun x _ => Some (map (fun _ => Fin 1) x).

Definition bump (x0 xi : R) : R := if Req_dec_T xi x0 then 2 else 1.

Definition bump_density (x0 : R) : density :=
  fun x _ => Some (map (fun xi => Fin (bump x0 xi)) x).

End Closed.

(** ** The rest of the maximum-likelihood notebook *)

Module Ascent.
Import MaxLikelihood.
Open Scope R_scope.

(** The pointer of [data_generator] after [n] batches have been taken
    from a generator whose pointer was [start]. *)
Fixpoint pointer_after {A : Type} (array : list A) (batch_size : Z) (n : nat)
    (start : Z) : Z :=
  match n with
  | O => start
  | S n' =>
      pointer_after array batch_size n'
        (snd (data_generator_step array batch_size start))
  end.

(** Python's [x ** y] on floats.  [None] stands for the two cases in
    which the result is not a real float: zero raised to a negative power
    (ZeroDivisionError) and a negative base raised to a power that is
    not an integer (a complex number). *)
Definition py_pow (x y : R) : option R :=
  if Rlt_dec 0 x then Some (Rpower x y)
  else if Req_dec_T x 0 then
    if Req_dec_T y 0 then Some 1
    else if Rlt_dec 0 y then Some 0 else None
  else if Req_dec_T (IZR (Zfloor y)) y then
    Some (if Z.even (Zfloor y) then Rpower (- x) y else - Rpower (- x) y)
  else None.

(** [calculate_learning_rate(_step, _start_lr, _divisor, _exponent)];
    [None] when the division by [_divisor] raises or the power is not a
    real float. *)
Definition calculate_learning_rate (_step _start_lr _divisor _exponent : R)
  : option R :=
  if Req_dec_T _divisor 0 then None
  else
    match py_pow (1 + _step / _divisor) (- _exponent) with
    | Some lr_scale => Some (lr_scale * _start_lr)
    | None => None
    end.

(** The defaults of the keyword parameters. *)
Definition default_start_lr : R := 1e-3.
Definition default_divisor : R := 100.
Definition default_exponent : R := 1.5.

(** [np.sqrt] of a float: NaN below zero. *)
Definition np_sqrt (a : Np.float) : Np.float :=
  match a with
  | Np.Fin x => if Rlt_dec x 0 then Np.NaN else Np.Fin (sqrt x)
  | Np.PInf => Np.PInf
  | Np.NInf | Np.NaN => Np.NaN
  end.

(** [scipy.stats.norm(loc=loc, scale=scale).logpdf(x)] on an array: the
    standardised log-density [-z**2/2 - log(2*pi)/2] minus [log(scale)].
    An infinite scale passes the argument check [scale > 0] and gives
    minus infinity; a scale that fails the check gives NaN. *)
Definition norm_logpdf (x : list R) (loc : R) (scale : Np.float)
  : list Np.float :=
  map (fun xi =>
         match scale with
         | Np.Fin s =>
             if Rlt_dec 0 s
             then Np.Fin (- (((xi - loc) / s) * ((xi - loc) / s)) / 2
                          - ln (2 * PI) / 2 - ln s)
             else Np.NaN
         | Np.PInf => Np.NInf
         | Np.NInf | Np.NaN => Np.NaN
         end) x.

(** [calculate_log_likelihood(_data, _mu, _tau)]. *)
Definition calculate_log_likelihood (_data : list R) (_mu _tau : R) : Np.float :=
  Np.sum (norm_logpdf _data _mu (Np.div (Np.Fin 1) (np_sqrt (Np.Fin _tau)))).

(** The sample mean and the sum of squared deviations from a centre. *)
Definition mean (_data : list R) : R := np_sum _data / INR (length _data).

Definition sum_sq (_data : list R) (c : R) : R :=
  np_sum (map (fun x => Rsqr (x - c)) _data).

(** The log-likelihood as a real function, for a positive precision. *)
Definition log_likelihood (_data : list R) (mu tau : R) : R :=
  INR (length _data) / 2 * ln tau
  - INR (length _data) / 2 * ln (2 * PI)
  - tau / 2 * sum_sq _data mu.

End Ascent.

(** ** The iterations of the maximum-likelihood notebook *)

Module AscentLoop.
Import MaxLikelihood Ascent.
Open Scope R_scope.

(** The variables of the notebook that the loop reads and updates,
    together with the pointer of [batch_generator]. *)
Record state : Type := {
  current_mu : R;
  current_tau : R;
  mu_list : list R;
  tau_list : list R;
  total_examples_seen : list Z;
  log_likelihoods : list Np.float;
  generator : Z
}.

(** [xs[-1]]; [None] stands for IndexError on an empty list. *)
Definition py_last {A : Type} (xs : list A) : option A :=
  match rev xs with
  | [] => None
  | x :: _ => Some x
  end.

Section Settings.

(** The settings of the set-up cell. *)
Variable full_data : list R.
Variable batch_size : Z.
Variable do_natural_gradient : bool.
Variable initial_learning_rate : R.

(** The state the set-up cell leaves. *)
Definition initial_state : state :=
  {| current_mu := -1;
     current_tau := 0.1;
     mu_list := [-1];
     tau_list := [0.1];
     total_examples_seen := [0%Z];
     log_likelihoods := [calculate_log_likelihood full_data (-1) 0.1];
     generator := 0%Z |}.

(** The body of [for step in range(101)].  The call of [generate_plot]
    at every 25th step only draws and is left out.  [None] when the
    learning rate or the gradient is not available. *)
Definition iteration (step : nat) (st : state) : option state :=
  match calculate_learning_rate (INR step) initial_learning_rate
          default_divisor 1.1 with
  | None => None
  | Some learning_rate =>
      let '(sample, generator') :=
        data_generator_step full_data batch_size (generator st) in
      match calculate_gradient (INR (length full_data)) sample
              (current_mu st) (current_tau st) with
      | None => None
      | Some (nat_grad, euc_grad) =>
          let grad := if do_natural_gradient then nat_grad else euc_grad in
          let mu' := current_mu st + learning_rate * fst grad in
          let tau' := current_tau st + learning_rate * snd grad in
          match py_last (total_examples_seen st) with
          | None => None
          | Some seen =>
              Some {| current_mu := mu';
                      current_tau := tau';
                      mu_list := mu_list st ++ [mu'];
                      tau_list := tau_list st ++ [tau'];
                      total_examples_seen :=
                        total_examples_seen st ++ [(batch_size + seen)%Z];
                      log_likelihoods :=
                        log_likelihoods st
                        ++ [calculate_log_likelihood full_data mu' tau'];
                      generator := generator' |}
          end
      end
  end.

(** The loop over [range(k)], from the state the set-up cell leaves. *)
Fixpoint run (k : nat) : option state :=
  match k with
  | O => Some initial_state
  | S k' =>
      match run k' with
      | None => None
      | Some st => iteration k' st
      end
  end.

(** What the loop keeps true of its variables after [k] iterations:
    every list has one entry per iteration on top of the initial one,
    the examples seen are the multiples of the batch size, the last
    entries are the current values, and the generator has handed out [k]
    batches. *)
Definition well_kept (k : nat) (st : state) : Prop :=
  length (mu_list st) = S k
  /\ length (tau_list st) = S k
  /\ length (log_likelihoods st) = S k
  /\ total_examples_seen st
     = map (fun i => (Z.of_nat i * batch_size)%Z) (seq 0 (S k))
  /\ py_last (mu_list st) = Some (current_mu st)
  /\ py_last (tau_list st) = Some (current_tau st)
  /\ py_last (log_likelihoods st)
     = Some (calculate_log_likelihood full_data (current_mu st) (current_tau st))
  /\ generator st = pointer_after full_data batch_size k 0.

End Settings.

End AscentLoop.

(** ** The exponential-family notebook (Gaussian part) *)

Module ExpFam.
Import Np Scipy.
Open Scope R_scope.

(** [np.exp] of a float. *)
Definition np_exp (a : float) : float :=
  match a with
  | Fin x => Fin (exp x)
  | PInf => PInf
  | NInf => Fin 0
  | NaN => NaN
  end.

(** Subtraction of floats. *)
Definition np_sub (a b : float) : float :=
  add a (match b with
         | Fin y => Fin (- y)
         | PInf => NInf
         | NInf => PInf
         | NaN => NaN
         end).

(** [np.matmul(eta, T)] for a vector [eta] and a matrix [T] given by its
    rows, all of length [n] (there is at least one row): entry [j] of the
    result is the sum over the rows [k] of [eta[k] * T[k][j]].  [None]
    stands for the ValueError on mismatched shapes. *)
Fixpoint weighted_rows (n : nat) (eta : list R) (T : list (list R))
  : option (list R) :=
  match eta, T with
  | [], [] => Some (repeat 0 n)
  | e :: eta', row :: T' =>
      if Nat.eqb (length row) n then
        match weighted_rows n eta' T' with
        | Some acc =>
            Some (map (fun ra => e * fst ra + snd ra) (combine row acc))
        | None => None
        end
      else None
  | _, _ => None
  end.

Definition matmul (eta : list R) (T : list (list R)) : option (list R) :=
  weighted_rows (length (hd [] T)) eta T.

(** [log_base_measure_func(x)] of the Gaussian: constant in [x]. *)
Definition log_base_measure_func (x : list R) : R := - 0.5 * ln (2 * PI).

(** [T_func(x)] of the Gaussian: the rows [x] and [x * x]. *)
Definition T_func (x : list R) : list (list R) :=
  [x; map (fun xi => xi * xi) x].

(** [natural_parameters] as the notebook computes it from the moment
    parameters [mu] and [sigma]; [None] is the ZeroDivisionError at
    [sigma = 0]. *)
Definition natural_parameters (mu sigma : R) : option (list R) :=
  if Req_dec_T (sigma * sigma) 0 then None
  else Some [mu / (sigma * sigma); - 0.5 / (sigma * sigma)].

(** [log_partition] as the notebook computes it. *)
Definition log_partition (mu sigma : R) : option float :=
  if Req_dec_T (2 * sigma * sigma) 0 then None
  else Some (add (Fin (mu * mu / (2 * sigma * sigma))) (log (Fin sigma))).

(** [normal_pdf_function(x)] for the moment parameters [mu], [sigma]. *)
Definition normal_pdf_function (mu sigma : R) (x : list R) : list float :=
  norm_pdf x mu sigma.

(** [plot_pdf(x, h, T, eta, A, moment_pdf)]: the two curves it draws
    over [x], the exponential-family one first (blue), the moment one
    second (red). *)
Definition plot_pdf (x : list R) (h : list R -> R) (T : list R -> list (list R))
    (eta : list R) (A : float) (moment_pdf : list R -> list float)
  : option (list float * list float) :=
  match matmul eta (T x) with
  | None => None
  | Some m =>
      let log_exp_fam := map (fun mj => np_sub (Fin (h x + mj)) A) m in
      Some (map np_exp log_exp_fam, moment_pdf x)
  end.

End ExpFam.

(* ================================================================== *)
(** * Part II: properties                                              *)
(* ================================================================== *)

Module PyFacts.

Lemma slice_inner {A : Type} (a : list A) (s e : nat) :
  (s <= e <= length a)%nat ->
  Py.slice a (Some (Z.of_nat s)) (Some (Z.of_nat e)) = firstn (e - s) (skipn s a).
Proof.
  intros H. unfold Py.slice, Py.clip_index.
  destruct (Z.ltb_spec (Z.of_nat s) 0); [lia|].
  destruct (Z.ltb_spec (Z.of_nat e) 0); [lia|].
  rewrite !Z.min_l by lia.
  replace (Z.to_nat (Z.of_nat e - Z.of_nat s)) with (e - s)%nat by lia.
  now rewrite Nat2Z.id.
Qed.

Lemma slice_tail {A : Type} (a : list A) (s : nat) :
  (s <= length a)%nat ->
  Py.slice a (Some (Z.of_nat s)) None = skipn s a.
Proof.
  intros H. unfold Py.slice, Py.clip_index.
  destruct (Z.ltb_spec (Z.of_nat s) 0); [lia|].
  rewrite Z.min_l by lia. rewrite Nat2Z.id.
  apply firstn_all2. rewrite length_skipn. lia.
Qed.

Lemma slice_head {A : Type} (a : list A) (e : nat) :
  (e <= length a)%nat ->
  Py.slice a None (Some (Z.of_nat e)) = firstn e a.
Proof.
  intros H. unfold Py.slice, Py.clip_index.
  destruct (Z.ltb_spec (Z.of_nat e) 0); [lia|].
  rewrite Z.min_l by lia. simpl.
  now rewrite Z.sub_0_r, Nat2Z.id.
Qed.

End PyFacts.

(** ** The batch generator *)

Module GeneratorFacts.
Import MaxLikelihood.

Section Cyclic.
Context {A : Type}.
Variable array : list A.
Variable d : A.

(** The element met after [k] steps of a cyclic walk through [array]. *)
Let cyc (k : nat) : A := nth (k mod length array) array d.

Lemma seq_from_zero (a n : nat) : seq a n = map (Nat.add a) (seq 0 n).
Proof.
  revert a. induction n as [|n IH]; intros a; simpl; [reflexivity|].
  rewrite Nat.add_0_r. f_equal.
  rewrite (IH (S a)), (IH 1%nat), map_map.
  apply map_ext. intros k. lia.
Qed.

Lemma window_inside (s n : nat) :
  (s + n <= length array)%nat ->
  firstn n (skipn s array) = map (fun k => cyc (s + k)) (seq 0 n).
Proof.
  intros H.
  apply nth_ext with (d := d) (d' := cyc 0).
  - rewrite length_firstn, length_skipn, length_map, length_seq. lia.
  - intros i Hi. rewrite length_firstn, length_skipn in Hi.
    rewrite nth_firstn.
    destruct (Nat.ltb_spec i n) as [Hin|Hin]; [|lia].
    rewrite nth_skipn.
    rewrite (nth_indep _ (cyc 0) (cyc (s + 0))) by (rewrite length_map, length_seq; lia).
    rewrite (map_nth (fun k => cyc (s + k)) (seq 0 n) 0%nat i).
    rewrite seq_nth by lia. unfold cyc. simpl.
    now rewrite Nat.mod_small by lia.
Qed.

Lemma window_wrapped (s n : nat) :
  (s <= length array)%nat -> (n <= length array)%nat ->
  (length array < s + n)%nat ->
  skipn s array ++ firstn (s + n - length array) array
  = map (fun k => cyc (s + k)) (seq 0 n).
Proof.
  intros Hs Hn Hw.
  set (L := length array) in *.
  replace n with ((L - s) + (s + n - L))%nat at 2 by lia.
  rewrite seq_app, map_app. f_equal.
  - rewrite <- (firstn_all2 (n := (L - s)%nat) (skipn s array))
      by (rewrite length_skipn; fold L; lia).
    apply window_inside. fold L. lia.
  - rewrite seq_from_zero, map_map.
    change (firstn (s + n - L) array) with (firstn (s + n - L) (skipn 0 array)).
    rewrite window_inside by (fold L; lia).
    apply map_ext_in. intros k Hk. apply in_seq in Hk.
    unfold cyc. fold L. f_equal.
    replace (s + (0 + (L - s) + k))%nat with (0 + k + 1 * L)%nat by lia.
    now rewrite Nat.Div0.mod_add.
Qed.

(** One turn of the loop, for a pointer within the array and a batch no
    longer than the array: the batch is the next [bs] elements of the
    cyclic walk and the pointer stays within the array, advanced by [bs]
    modulo the length. *)
Lemma step_cyclic (bs s : nat) :
  (1 <= bs <= length array)%nat -> (s <= length array)%nat ->
  exists s' : nat,
    data_generator_step array (Z.of_nat bs) (Z.of_nat s)
    = (map (fun k => cyc (s + k)) (seq 0 bs), Z.of_nat s')
    /\ (s' <= length array)%nat
    /\ (s' mod length array = (s + bs) mod length array)%nat.
Proof.
  intros Hbs Hs. unfold data_generator_step.
  destruct (Z.leb_spec (Z.of_nat s + Z.of_nat bs - Z.of_nat (length array)) 0)
    as [Hd|Hd].
  - exists (s + bs)%nat. repeat split; try lia.
    rewrite <- Nat2Z.inj_add. f_equal.
    rewrite PyFacts.slice_inner by lia.
    replace (s + bs - s)%nat with bs by lia.
    apply window_inside. lia.
  - exists (s + bs - length array)%nat. repeat split; try lia.
    + replace (Z.of_nat s + Z.of_nat bs - Z.of_nat (length array))%Z
        with (Z.of_nat (s + bs - length array)) by lia.
      f_equal.
      rewrite PyFacts.slice_tail, PyFacts.slice_head by lia.
      apply window_wrapped; lia.
    + replace (s + bs)%nat with ((s + bs - length array) + 1 * length array)%nat
        at 2 by lia.
      now rewrite Nat.Div0.mod_add.
Qed.

Lemma cyc_shift (s s' k : nat) :
  (s' mod length array = s mod length array)%nat ->
  cyc (s' + k) = cyc (s + k).
Proof.
  intros H. unfold cyc. f_equal.
  rewrite (Nat.Div0.add_mod s'), (Nat.Div0.add_mod s), H. reflexivity.
Qed.

Lemma batches_from_cyclic (bs : nat) :
  (1 <= bs <= length array)%nat ->
  forall (n s : nat), (s <= length array)%nat ->
    Forall (fun b => length b = bs) (batches_from array (Z.of_nat bs) n (Z.of_nat s))
    /\ concat (batches_from array (Z.of_nat bs) n (Z.of_nat s))
       = map (fun k => cyc (s + k)) (seq 0 (n * bs)).
Proof.
  intros Hbs n. induction n as [|n IH]; intros s Hs.
  - simpl. split; [constructor | reflexivity].
  - destruct (step_cyclic bs s Hbs Hs) as (s' & Hstep & Hs' & Hmod).
    cbn [batches_from]. rewrite Hstep.
    destruct (IH s' Hs') as [IHlen IHcat]. split.
    + constructor; [|exact IHlen].
      now rewrite length_map, length_seq.
    + cbn [concat]. rewrite IHcat.
      replace (S n * bs)%nat with (bs + n * bs)%nat by lia.
      rewrite seq_app, map_app. f_equal. simpl.
      rewrite (seq_from_zero (0 + bs)), map_map.
      apply map_ext. intros k.
      replace (s + (0 + bs + k))%nat with ((s + bs) + k)%nat by lia.
      apply cyc_shift. exact Hmod.
Qed.

End Cyclic.

(** C9.  For an array of length at least 1 and a batch size between 1 and
    that length, every batch yielded by [data_generator] has exactly
    [batch_size] elements, and the batches, concatenated in the order they
    are yielded, enumerate the array cyclically: the [k]-th element handed
    out is [array[k mod L]] (after the last element comes the first). *)
Theorem data_generator_cyclic {A : Type} (array : list A) (batch_size : Z)
    (d : A) (n : nat) :
  (1 <= length array)%nat ->
  (1 <= batch_size <= Z.of_nat (length array))%Z ->
  Forall (fun batch => Z.of_nat (length batch) = batch_size)
         (data_generator array batch_size n)
  /\ concat (data_generator array batch_size n)
     = map (fun k => nth (k mod length array) array d)
           (seq 0 (n * Z.to_nat batch_size)).
Proof.
  intros HL Hbs. unfold data_generator.
  assert (Hnat : (1 <= Z.to_nat batch_size <= length array)%nat) by lia.
  destruct (batches_from_cyclic array d (Z.to_nat batch_size) Hnat n 0%nat)
    as [Hlen Hcat]; [lia|].
  rewrite Z2Nat.id in Hlen, Hcat by lia. simpl in Hlen, Hcat.
  split.
  - eapply Forall_impl; [|exact Hlen]. simpl. intros b Hb. lia.
  - exact Hcat.
Qed.

Lemma data_generator_cyclic_witness :
  (1 <= length [10; 20; 30]%nat)%nat
  /\ (1 <= 2 <= Z.of_nat (length [10; 20; 30]%nat))%Z
  /\ data_generator [10; 20; 30]%nat 2 3 = [[10; 20]; [30; 10]; [20; 30]]%nat
  /\ (Forall (fun batch => Z.of_nat (length batch) = 2%Z)
             (data_generator [10; 20; 30]%nat 2 3)
      /\ concat (data_generator [10; 20; 30]%nat 2 3)
         = map (fun k => nth (k mod 3) [10; 20; 30]%nat 0%nat)
               (seq 0 (3 * Z.to_nat 2)))%nat.
Proof.
  split; [simpl; lia|]. split; [simpl; lia|]. split; [reflexivity|].
  apply (data_generator_cyclic [10; 20; 30]%nat 2 0%nat 3); simpl; lia.
Defined.

End GeneratorFacts.

(** ** The two gradients *)

Module GradientFacts.
Import MaxLikelihood.
Open Scope R_scope.

Lemma batch_length_nonzero (_data : list R) : _data <> [] -> INR (length _data) <> 0.
Proof.
  intros H. destruct _data as [|x xs]; [congruence|].
  apply not_0_INR. simpl. discriminate.
Qed.

(** C10.  For [N <> 0], [_tau > 0], any [_mu] and a non-empty batch,
    [calculate_gradient] returns its two gradients, and the natural
    gradient is the inverse Fisher matrix diag(1/tau, 2*tau^2) applied,
    component by component, to (len(_data)/N) times the euclidean
    gradient. *)
Theorem natural_gradient_is_scaled_euclidean (N : R) (_data : list R) (_mu _tau : R) :
  N <> 0 -> 0 < _tau -> _data <> [] ->
  exists natural_gradient euclidean_gradient : R * R,
    calculate_gradient N _data _mu _tau = Some (natural_gradient, euclidean_gradient)
    /\ fst natural_gradient
       = 1 / _tau * (INR (length _data) / N * fst euclidean_gradient)
    /\ snd natural_gradient
       = 2 * (_tau * _tau) * (INR (length _data) / N * snd euclidean_gradient).
Proof.
  intros HN Htau Hdata.
  pose proof (batch_length_nonzero _data Hdata) as Hlen.
  unfold calculate_gradient.
  destruct (Req_dec_T _tau 0) as [E|_]; [lra|].
  destruct _data as [|x xs]; [congruence|].
  set (data := x :: xs) in *.
  eexists. eexists. split; [reflexivity|].
  cbn [fst snd]. split; field; auto with real.
Qed.

Lemma natural_gradient_is_scaled_euclidean_witness :
  (100 <> 0 /\ 0 < 2 /\ [1; 3] <> []) /\
  exists natural_gradient euclidean_gradient : R * R,
    calculate_gradient 100 [1; 3] 1 2 = Some (natural_gradient, euclidean_gradient)
    /\ fst natural_gradient
       = 1 / 2 * (INR (length [1; 3]) / 100 * fst euclidean_gradient)
    /\ snd natural_gradient
       = 2 * (2 * 2) * (INR (length [1; 3]) / 100 * snd euclidean_gradient).
Proof.
  split.
  - repeat split; [lra | lra | discriminate].
  - apply (natural_gradient_is_scaled_euclidean 100 [1; 3] 1 2);
      [lra | lra | discriminate].
Defined.

End GradientFacts.

(** ** NumPy arrays *)

Module NpFacts.
Import Np.
Open Scope R_scope.

Lemma elementwise_same_length (op : float -> float -> float) (a b : list float) :
  length a = length b ->
  elementwise op a b = Some (map (fun ab => op (fst ab) (snd ab)) (combine a b)).
Proof.
  intros H. unfold elementwise.
  now rewrite (proj2 (Nat.eqb_eq _ _) H).
Qed.

Lemma zip_by_index (op : float -> float -> float) (a b : list float) (n : nat) :
  length a = n -> length b = n ->
  map (fun ab => op (fst ab) (snd ab)) (combine a b)
  = map (fun i => op (nth i a NaN) (nth i b NaN)) (seq 0 n).
Proof.
  intros Ha Hb.
  apply nth_ext with (d := NaN) (d' := NaN).
  - rewrite !length_map, length_combine, length_seq. lia.
  - intros i Hi. rewrite length_map, length_combine in Hi.
    rewrite (nth_indep _ NaN (op (fst (NaN, NaN)) (snd (NaN, NaN))))
      by (rewrite length_map, length_combine; lia).
    rewrite (map_nth (fun ab => op (fst ab) (snd ab))).
    rewrite combine_nth by lia. cbn [fst snd].
    symmetry.
    rewrite (nth_indep (map _ (seq 0 n)) NaN (op (nth 0 a NaN) (nth 0 b NaN)))
      by (rewrite length_map, length_seq; lia).
    rewrite (map_nth (fun i => op (nth i a NaN) (nth i b NaN)) (seq 0 n) 0%nat).
    now rewrite seq_nth by lia.
Qed.

Lemma zip_map_fin (op : float -> float -> float) (h : R -> R -> R) (u v : R -> R)
    (xs : list R) :
  (forall x, In x xs -> op (Fin (u x)) (Fin (v x)) = Fin (h (u x) (v x))) ->
  map (fun ab => op (fst ab) (snd ab))
      (combine (map (fun x => Fin (u x)) xs) (map (fun x => Fin (v x)) xs))
  = map (fun x => Fin (h (u x) (v x))) xs.
Proof.
  induction xs as [|x xs IH]; intros H; simpl; [reflexivity|].
  rewrite H by now left. f_equal. apply IH. intros y Hy. apply H. now right.
Qed.

Lemma div_fin (a b : R) : b <> 0 -> div (Fin a) (Fin b) = Fin (a / b).
Proof. intros H. simpl. now destruct (Req_dec_T b 0). Qed.

Lemma log_fin (a : R) : 0 < a -> log (Fin a) = Fin (ln a).
Proof. intros H. simpl. now destruct (Rlt_dec 0 a). Qed.

Lemma sum_fin (rs : list R) : sum (map Fin rs) = Fin (fold_right Rplus 0 rs).
Proof.
  induction rs as [|r rs IH]; [reflexivity|].
  cbn [map fold_right]. change (sum (Fin r :: map Fin rs)) with (add (Fin r) (sum (map Fin rs))).
  now rewrite IH.
Qed.

Lemma sum_zeros (v : list float) : Forall (eq (Fin 0)) v -> sum v = Fin 0.
Proof.
  induction 1 as [|x v Hx _ IH]; [reflexivity|].
  change (sum (x :: v)) with (add x (sum v)).
  rewrite IH, <- Hx. simpl. f_equal. lra.
Qed.

Lemma arange_grid (eps : R) :
  eps <> 0 -> arange (-25) 25 eps = Some (Closed.grid eps).
Proof.
  intros H. unfold arange, Closed.grid, Closed.grid_size.
  destruct (Req_dec_T eps 0) as [E|_]; [contradiction|].
  now replace (25 - -25) with 50 by lra.
Qed.

(** The grid for a positive step has at least one point; its last point
    lies below 25 and one more step reaches 25. *)
Lemma grid_spans (eps : R) :
  0 < eps ->
  (1 <= Closed.grid_size eps)%nat
  /\ -25 + INR (Closed.grid_size eps - 1) * eps < 25
  /\ 25 <= -25 + INR (Closed.grid_size eps) * eps.
Proof.
  intros Heps. unfold Closed.grid_size.
  pose proof (Zceil_bound (50 / eps)) as [Hlo Hhi].
  assert (Hq : 0 < 50 / eps) by (apply Rdiv_lt_0_compat; lra).
  assert (Hpos : (1 <= Zceil (50 / eps))%Z).
  { assert (0 < IZR (Zceil (50 / eps))) by lra.
    apply lt_IZR in H. lia. }
  assert (Hn : INR (Z.to_nat (Zceil (50 / eps))) = IZR (Zceil (50 / eps))).
  { rewrite INR_IZR_INZ, Z2Nat.id by lia. reflexivity. }
  assert (Hmul : 50 / eps * eps = 50) by (field; lra).
  split; [lia|]. split.
  - rewrite minus_INR by lia. rewrite Hn. simpl INR. nra.
  - rewrite Hn. nra.
Qed.

End NpFacts.

(** ** The two densities *)

Module DensityFacts.
Import Np Scipy Projection Closed.
Open Scope R_scope.

Lemma sqrt_2PI_pos : 0 < sqrt (2 * PI).
Proof. apply sqrt_lt_R0. pose proof PI_RGT_0. lra. Qed.

Lemma std_norm_pdf_pos (z : R) : 0 < std_norm_pdf z.
Proof.
  unfold std_norm_pdf. apply Rdiv_lt_0_compat; [apply exp_pos | apply sqrt_2PI_pos].
Qed.

Lemma gauss_pos (loc scale xi : R) : 0 < scale -> 0 < gauss loc scale xi.
Proof.
  intros H. unfold gauss. apply Rdiv_lt_0_compat; [apply std_norm_pdf_pos | exact H].
Qed.

Lemma mixture_pos (xi : R) : 0 < mixture xi.
Proof.
  unfold mixture.
  pose proof (gauss_pos 1 0.5 xi ltac:(lra)).
  pose proof (gauss_pos 10 3 xi ltac:(lra)).
  nra.
Qed.

Lemma floored_gauss_floor (loc scale xi : R) : 1e-6 <= floored_gauss loc scale xi.
Proof. apply Rmax_l. Qed.

Lemma floored_gauss_pos (mu sigma xi : R) : 0 < floored_gauss mu sigma xi.
Proof. pose proof (floored_gauss_floor mu sigma xi). lra. Qed.

Create HintDb density_pos discriminated.
#[global] Hint Resolve exp_pos sqrt_2PI_pos std_norm_pdf_pos mixture_pos
  floored_gauss_pos Rdiv_lt_0_compat : density_pos.

(** The side conditions of a call with explicit keyword arguments: the
    two lookups and the sign of the scale. *)
Ltac kw_side := first [reflexivity | lra].

Lemma norm_pdf_valid (x : list R) (loc scale : R) :
  0 < scale -> norm_pdf x loc scale = map (fun xi => Fin (gauss loc scale xi)) x.
Proof.
  intros H. unfold norm_pdf. apply map_ext. intros xi.
  now destruct (Rlt_dec 0 scale).
Qed.

Lemma norm_pdf_invalid (x : list R) (loc scale : R) :
  scale <= 0 -> norm_pdf x loc scale = map (fun _ => NaN) x.
Proof.
  intros H. unfold norm_pdf. apply map_ext. intros xi.
  destruct (Rlt_dec 0 scale); [lra | reflexivity].
Qed.

Lemma p_closed_form (x : list R) (kw : kwargs) :
  p_distribution_pdf x kw = Some (map (fun xi => Fin (mixture xi)) x).
Proof.
  unfold p_distribution_pdf.
  rewrite !norm_pdf_valid by lra. rewrite !map_map.
  rewrite NpFacts.elementwise_same_length by now rewrite !length_map.
  f_equal.
  rewrite (NpFacts.zip_map_fin add Rplus
             (fun xi => 0.1 * gauss 1 0.5 xi) (fun xi => (1 - 0.1) * gauss 10 3 xi));
    reflexivity.
Qed.

Lemma q_closed_form (x : list R) (kw : kwargs) (loc scale : R) :
  kwargs_get "loc" kw = Some loc -> kwargs_get "scale" kw = Some scale ->
  0 < scale ->
  q_distribution_pdf x kw = Some (map (fun xi => Fin (floored_gauss loc scale xi)) x).
Proof.
  intros Hl Hs Hpos. unfold q_distribution_pdf. rewrite Hl, Hs. cbn [bind].
  rewrite norm_pdf_valid by exact Hpos. now rewrite map_map.
Qed.

Lemma q_nan_on_params (x : list R) (loc scale : R) :
  scale <= 0 -> q_distribution_pdf x (params loc scale) = Some (map (fun _ => NaN) x).
Proof.
  intros Hneg. unfold q_distribution_pdf, params. cbn [kwargs_get String.eqb].
  cbn. rewrite norm_pdf_invalid by exact Hneg. now rewrite map_map.
Qed.

(** C8.  The mixture density does not look at its keyword arguments: on
    the same points, any two sets of keyword arguments (with or without
    [loc] and [scale], whatever their values) give the same result. *)
Theorem p_distribution_pdf_ignores_kwargs (x : list R) (kw1 kw2 : kwargs) :
  p_distribution_pdf x kw1 = p_distribution_pdf x kw2.
Proof. reflexivity. Qed.

(** C3, as the code behaves.  [q_distribution_pdf] neither rejects nor
    clamps a scale that is zero or negative: the call returns normally,
    the scale reaches [norm.pdf] unchanged, and every entry of the result
    is NaN, which [np.maximum] keeps. *)
Theorem q_distribution_pdf_nonpositive_scale_is_nan (x : list R) (kw : kwargs)
    (loc scale : R) :
  kwargs_get "loc" kw = Some loc -> kwargs_get "scale" kw = Some scale ->
  scale <= 0 ->
  q_distribution_pdf x kw = Some (map (fun _ => NaN) x).
Proof.
  intros Hl Hs Hneg. unfold q_distribution_pdf. rewrite Hl, Hs. cbn [bind].
  rewrite norm_pdf_invalid by exact Hneg. now rewrite map_map.
Qed.

Lemma q_distribution_pdf_nonpositive_scale_is_nan_witness :
  (kwargs_get "loc" (params 0 (-1)) = Some 0
   /\ kwargs_get "scale" (params 0 (-1)) = Some (-1)
   /\ -1 <= 0)
  /\ q_distribution_pdf [0; 1] (params 0 (-1)) = Some [NaN; NaN].
Proof.
  split.
  - split; [reflexivity | split; [reflexivity | lra]].
  - apply (q_distribution_pdf_nonpositive_scale_is_nan [0; 1] (params 0 (-1)) 0 (-1));
      kw_side.
Defined.

(** C3, as stated, fails.  With [loc=0], [scale=-1] and the single point
    0 the call is not rejected (it returns an array) and the array holds
    a NaN. *)
Lemma q_distribution_pdf_scale_not_guarded :
  -1 <= 0
  /\ q_distribution_pdf [0] (params 0 (-1)) = Some [NaN]
  /\ ~ (q_distribution_pdf [0] (params 0 (-1)) = None
        \/ exists v, q_distribution_pdf [0] (params 0 (-1)) = Some v
                     /\ Forall (finite_with (fun _ => True)) v).
Proof.
  pose proof (q_nan_on_params [0] 0 (-1) ltac:(lra)) as E. cbn [map] in E.
  split; [lra|]. split; [exact E|].
  intros [H | (v & H & Hv)]; rewrite E in H; [discriminate|].
  injection H as <-. inversion Hv as [|? ? (r & Hr & _) _]. discriminate.
Qed.

End DensityFacts.

(** ** The objective and the driver *)

Module ObjectiveFacts.
Import Np Scipy Projection Closed.
Open Scope R_scope.

Lemma KL_on_grid (f g : density) (eps mu sigma : R) :
  eps <> 0 ->
  calculate_KL_for_given_parameters f g eps [mu; sigma]
  = bind (KL_summand f g (grid eps) mu sigma)
         (fun terms => Some (mul (Fin eps) (sum terms))).
Proof.
  intros H. unfold calculate_KL_for_given_parameters. cbn [Py.item nth_error bind].
  now rewrite NpFacts.arange_grid by exact H.
Qed.

(** C1.  For densities [f] and [g] that return arrays of the shape of
    their input, and a step [eps > 0], the objective at [[mu, sigma]] is
    [eps] times the sum over the grid points [x_i] of
    [f(x_i) * log(f(x_i) / g(x_i))].  The grid points are
    [x_i = -25 + i * eps], [i = 0 .. n-1]: they start at -25, lie [eps]
    apart, stay below +25, and one more step from the last one reaches
    +25. *)
Theorem calculate_KL_is_riemann_sum (f g : density) (eps mu sigma : R)
    (fx gx : list float) :
  0 < eps ->
  f (grid eps) (params mu sigma) = Some fx ->
  g (grid eps) (params mu sigma) = Some gx ->
  length fx = grid_size eps ->
  length gx = grid_size eps ->
  calculate_KL_for_given_parameters f g eps [mu; sigma]
  = Some (mul (Fin eps)
            (sum (map (fun i => mul (nth i fx NaN)
                                    (log (div (nth i fx NaN) (nth i gx NaN))))
                      (seq 0 (grid_size eps)))))
  /\ grid eps = map (fun i => -25 + INR i * eps) (seq 0 (grid_size eps))
  /\ (1 <= grid_size eps)%nat
  /\ -25 + INR (grid_size eps - 1) * eps < 25
  /\ 25 <= -25 + INR (grid_size eps) * eps.
Proof.
  intros Heps Hf Hg Hlf Hlg.
  split; [|split; [reflexivity | apply NpFacts.grid_spans; exact Heps]].
  rewrite KL_on_grid by lra.
  unfold KL_summand. rewrite Hf, Hg. cbn [bind].
  rewrite NpFacts.elementwise_same_length by congruence. cbn [bind].
  rewrite (NpFacts.zip_by_index div fx gx (grid_size eps)) by assumption.
  rewrite NpFacts.elementwise_same_length
    by (rewrite !length_map, length_seq; exact Hlf).
  cbn [bind]. do 3 f_equal.
  rewrite (NpFacts.zip_by_index mul fx _ (grid_size eps))
    by (rewrite ?length_map, ?length_seq; auto).
  apply map_ext_in. intros i Hi. apply in_seq in Hi. f_equal.
  rewrite (nth_indep _ NaN (log (div (nth 0 fx NaN) (nth 0 gx NaN))))
    by (rewrite !length_map, length_seq; lia).
  rewrite map_map.
  rewrite (map_nth (fun i => log (div (nth i fx NaN) (nth i gx NaN)))
             (seq 0 (grid_size eps)) 0%nat).
  now rewrite seq_nth by lia.
Qed.

Lemma calculate_KL_is_riemann_sum_witness :
  (0 < 1
   /\ p_distribution_pdf (grid 1) (params 0 5)
      = Some (map (fun xi => Fin (mixture xi)) (grid 1))
   /\ q_distribution_pdf (grid 1) (params 0 5)
      = Some (map (fun xi => Fin (floored_gauss 0 5 xi)) (grid 1))
   /\ length (map (fun xi => Fin (mixture xi)) (grid 1)) = grid_size 1
   /\ length (map (fun xi => Fin (floored_gauss 0 5 xi)) (grid 1)) = grid_size 1)
  /\ (calculate_KL_for_given_parameters p_distribution_pdf q_distribution_pdf 1 [0; 5]
      = Some (mul (Fin 1)
                (sum (map (fun i =>
                             mul (nth i (map (fun xi => Fin (mixture xi)) (grid 1)) NaN)
                               (log (div
                                  (nth i (map (fun xi => Fin (mixture xi)) (grid 1)) NaN)
                                  (nth i (map (fun xi => Fin (floored_gauss 0 5 xi))
                                            (grid 1)) NaN))))
                          (seq 0 (grid_size 1)))))
      /\ grid 1 = map (fun i => -25 + INR i * 1) (seq 0 (grid_size 1))
      /\ (1 <= grid_size 1)%nat
      /\ -25 + INR (grid_size 1 - 1) * 1 < 25
      /\ 25 <= -25 + INR (grid_size 1) * 1).
Proof.
  assert (H1 : 0 < 1) by lra.
  assert (Hp : p_distribution_pdf (grid 1) (params 0 5)
               = Some (map (fun xi => Fin (mixture xi)) (grid 1)))
    by apply DensityFacts.p_closed_form.
  assert (Hq : q_distribution_pdf (grid 1) (params 0 5)
               = Some (map (fun xi => Fin (floored_gauss 0 5 xi)) (grid 1)))
    by (apply DensityFacts.q_closed_form; DensityFacts.kw_side).
  assert (Hlf : length (map (fun xi => Fin (mixture xi)) (grid 1)) = grid_size 1)
    by (unfold grid; now rewrite !length_map, length_seq).
  assert (Hlg : length (map (fun xi => Fin (floored_gauss 0 5 xi)) (grid 1))
                = grid_size 1)
    by (unfold grid; now rewrite !length_map, length_seq).
  split; [repeat (split; [assumption|]); assumption|].
  exact (calculate_KL_is_riemann_sum p_distribution_pdf q_distribution_pdf
           1 0 5 _ _ H1 Hp Hq Hlf Hlg).
Defined.

(** C4.  Whatever the minimiser, [optimize_parameters] calls it exactly
    once: on the objective [calculate_KL_for_given_parameters] for the
    given [f], [g] and [eps], with two pairs of bounds (none for the
    mean; for the scale the lower bound 1e-2 and no upper bound) and
    with the starting point [[0, 5]].  Its result is the [x] slot of what the
    minimiser reports (and the minimiser's failure when it raises). *)
Theorem optimize_parameters_calls_minimize_once (f g : density) (eps : R)
    (minimize : minimize_call -> option OptimizeResult) :
  exists c : minimize_call,
    run minimize (optimize_parameters f g eps) = (option_map res_x (minimize c), [c])
    /\ call_fun c = calculate_KL_for_given_parameters f g eps
    /\ call_bounds c = [(None, None); (Some 1e-2, None)]
    /\ call_x0 c = [0; 5].
Proof.
  exists {| call_fun := calculate_KL_for_given_parameters f g eps;
            call_bounds := [(None, None); (Some 1e-2, None)];
            call_x0 := [0; 5] |}.
  split; [|split; [reflexivity | split; reflexivity]].
  unfold optimize_parameters. cbn [run].
  destruct (minimize _) as [r|]; reflexivity.
Qed.

Lemma self_terms_vanish (fx : list float) :
  Forall (finite_with (fun r => r <> 0)) fx ->
  Forall (eq (Fin 0))
    (map (fun ab => mul (fst ab) (snd ab))
       (combine fx
          (map log (map (fun ab => div (fst ab) (snd ab)) (combine fx fx))))).
Proof.
  induction 1 as [|v fx (r & -> & Hr) _ IH]; cbn [combine map fst snd];
    constructor; [|exact IH].
  rewrite NpFacts.div_fin by exact Hr.
  replace (r / r) with 1 by (field; exact Hr).
  rewrite NpFacts.log_fin by lra. rewrite ln_1. simpl. f_equal. lra.
Qed.

Lemma self_estimate_vanishes (f : density) (eps mu sigma : R) (fx : list float) :
  eps <> 0 ->
  f (grid eps) (params mu sigma) = Some fx ->
  Forall (finite_with (fun r => r <> 0)) fx ->
  calculate_KL_for_given_parameters f f eps [mu; sigma] = Some (Fin 0).
Proof.
  intros Heps Hf Hfx.
  rewrite KL_on_grid by exact Heps.
  unfold KL_summand. rewrite Hf. cbn [bind].
  rewrite NpFacts.elementwise_same_length by reflexivity. cbn [bind].
  rewrite NpFacts.elementwise_same_length
    by (rewrite !length_map, length_combine; lia).
  cbn [bind].
  rewrite (NpFacts.sum_zeros _ (self_terms_vanish fx Hfx)).
  simpl. do 2 f_equal. lra.
Qed.

Lemma all_finite_nonzero (u : R -> R) (xs : list R) :
  (forall xi, 0 < u xi) ->
  Forall (finite_with (fun r => r <> 0)) (map (fun xi => Fin (u xi)) xs).
Proof.
  intros Hu. apply Forall_map, Forall_forall. intros xi _.
  exists (u xi). split; [reflexivity|]. specialize (Hu xi). lra.
Qed.

(** C6.  At every step [eps > 0] and with the same parameters on both
    sides, the estimate of the divergence of a density from itself is
    exactly 0, for every density whose values at the grid points are
    finite and not zero (so that the logarithm's argument is defined);
    in particular for the mixture, and for the floored Gaussian with any
    valid scale.  The discrepancy from 0 is thus nil on every grid, hence
    also in the limit of [eps] to 0. *)
Theorem KL_self_is_zero (eps mu sigma : R) :
  0 < eps ->
  (forall (f : density) (fx : list float),
      f (grid eps) (params mu sigma) = Some fx ->
      Forall (finite_with (fun r => r <> 0)) fx ->
      calculate_KL_for_given_parameters f f eps [mu; sigma] = Some (Fin 0))
  /\ calculate_KL_for_given_parameters p_distribution_pdf p_distribution_pdf
       eps [mu; sigma] = Some (Fin 0)
  /\ (0 < sigma ->
      calculate_KL_for_given_parameters q_distribution_pdf q_distribution_pdf
        eps [mu; sigma] = Some (Fin 0)).
Proof.
  intros Heps. split; [|split].
  - intros f fx. apply self_estimate_vanishes. lra.
  - apply self_estimate_vanishes
      with (fx := map (fun xi => Fin (mixture xi)) (grid eps)); [lra | |].
    + apply DensityFacts.p_closed_form.
    + apply all_finite_nonzero, DensityFacts.mixture_pos.
  - intros Hsig.
    apply self_estimate_vanishes
      with (fx := map (fun xi => Fin (floored_gauss mu sigma xi)) (grid eps));
      [lra | |].
    + apply DensityFacts.q_closed_form; first [reflexivity | exact Hsig].
    + apply all_finite_nonzero. intros xi. auto with density_pos.
Qed.

Lemma KL_self_is_zero_witness :
  0 < 1e-2
  /\ calculate_KL_for_given_parameters p_distribution_pdf p_distribution_pdf
       1e-2 [0; 5] = Some (Fin 0)
  /\ calculate_KL_for_given_parameters q_distribution_pdf q_distribution_pdf
       1e-2 [0; 5] = Some (Fin 0).
Proof.
  assert (H : 0 < 1e-2) by lra.
  destruct (KL_self_is_zero 1e-2 0 5 H) as (_ & Hp & Hq).
  split; [exact H | split; [exact Hp | apply Hq; lra]].
Defined.

End ObjectiveFacts.

(** ** Numeric bounds on the Gaussian values *)

Module BoundFacts.
Import Scipy Closed.
Open Scope R_scope.

Lemma sqrt_2PI_bounds : 2 <= sqrt (2 * PI) <= 3.
Proof.
  pose proof PI2_1 as Hlo. pose proof PI_4 as Hhi.
  assert (H4 : sqrt 4 = 2)
    by (replace 4 with (2 * 2) by lra; apply sqrt_square; lra).
  assert (H9 : sqrt 9 = 3)
    by (replace 9 with (3 * 3) by lra; apply sqrt_square; lra).
  split.
  - rewrite <- H4 at 1. apply sqrt_le_1_alt. lra.
  - rewrite <- H9. apply sqrt_le_1_alt. lra.
Qed.

Lemma inv_e_bounds : / 3 <= / exp 1 <= / 2.
Proof.
  pose proof exp_le_3 as Hhi. pose proof (exp_ineq1_le 1) as Hlo.
  split; apply Rinv_le_contravar; lra.
Qed.

Lemma exp_neg_nat_bounds (n : nat) : (/ 3) ^ n <= exp (- INR n) <= (/ 2) ^ n.
Proof.
  induction n as [|n IH].
  - simpl. rewrite Ropp_0, exp_0. lra.
  - rewrite S_INR, Ropp_plus_distr, exp_plus, (exp_Ropp 1). cbn [pow].
    pose proof inv_e_bounds as [H1 H2].
    pose proof (exp_pos (- INR n)) as Hp.
    assert (0 < (/ 3) ^ n) by (apply pow_lt; lra).
    rewrite (Rmult_comm (exp (- INR n))).
    split; apply Rmult_le_compat; lra.
Qed.

Lemma exp_neg_upper (n : nat) (x : R) : INR n <= x -> exp (- x) <= (/ 2) ^ n.
Proof.
  intros H. apply Rle_trans with (exp (- INR n)); [|apply exp_neg_nat_bounds].
  destruct (Req_dec x (INR n)) as [->|Hne]; [lra|].
  left. apply exp_increasing. lra.
Qed.

Lemma exp_neg_lower (n : nat) (x : R) : x <= INR n -> (/ 3) ^ n <= exp (- x).
Proof.
  intros H. apply Rle_trans with (exp (- INR n)); [apply exp_neg_nat_bounds|].
  destruct (Req_dec x (INR n)) as [->|Hne]; [lra|].
  left. apply exp_increasing. lra.
Qed.

Lemma div_le_of_le_mul (a q c : R) : 0 < q -> a <= c * q -> a / q <= c.
Proof.
  intros Hq H. apply Rmult_le_reg_r with q; [exact Hq|].
  replace (a / q * q) with a by (field; lra). exact H.
Qed.

Lemma le_div_of_mul_le (a q c : R) : 0 < q -> c * q <= a -> c <= a / q.
Proof.
  intros Hq H. apply Rmult_le_reg_r with q; [exact Hq|].
  replace (a / q * q) with a by (field; lra). exact H.
Qed.

(** The value of a Gaussian density in terms of the exponential. *)
Lemma gauss_exp (loc scale xi : R) :
  0 < scale ->
  gauss loc scale xi
  = exp (- (((xi - loc) / scale) * ((xi - loc) / scale) / 2)) / (sqrt (2 * PI) * scale).
Proof.
  intros H. unfold gauss, std_norm_pdf.
  pose proof sqrt_2PI_bounds.
  replace (- ((xi - loc) / scale * ((xi - loc) / scale)) / 2)
    with (- ((xi - loc) / scale * ((xi - loc) / scale) / 2)) by lra.
  field. lra.
Qed.

Lemma gauss_upper (loc scale xi : R) (n : nat) :
  0 < scale ->
  INR n <= ((xi - loc) / scale) * ((xi - loc) / scale) / 2 ->
  gauss loc scale xi <= (/ 2) ^ n / (2 * scale).
Proof.
  intros Hs Hn. rewrite gauss_exp by exact Hs.
  pose proof (exp_neg_upper n _ Hn) as He.
  pose proof (exp_pos (- ((xi - loc) / scale * ((xi - loc) / scale) / 2))) as Hp.
  pose proof sqrt_2PI_bounds as [Hlo Hhi].
  apply Rmult_le_compat; try lra.
  - left. apply Rinv_0_lt_compat. nra.
  - apply Rinv_le_contravar; nra.
Qed.

Lemma gauss_lower (loc scale xi : R) (n : nat) :
  0 < scale ->
  ((xi - loc) / scale) * ((xi - loc) / scale) / 2 <= INR n ->
  (/ 3) ^ n / (3 * scale) <= gauss loc scale xi.
Proof.
  intros Hs Hn. rewrite gauss_exp by exact Hs.
  pose proof (exp_neg_lower n _ Hn) as He.
  assert (0 < (/ 3) ^ n) by (apply pow_lt; lra).
  pose proof sqrt_2PI_bounds as [Hlo Hhi].
  apply Rmult_le_compat; try lra.
  - left. apply Rinv_0_lt_compat. nra.
  - apply Rinv_le_contravar; nra.
Qed.

(** The mixture at the left end of the integration domain. *)
Lemma mixture_at_left_end : 0 < mixture (-25) <= 25 / 100 * (/ 2) ^ 20.
Proof.
  split; [apply DensityFacts.mixture_pos|].
  unfold mixture.
  assert (H1 : gauss 1 0.5 (-25) <= (/ 2) ^ 20 / (2 * 0.5)).
  { apply gauss_upper; [lra|]. simpl INR. lra. }
  assert (H2 : gauss 10 3 (-25) <= (/ 2) ^ 20 / (2 * 3)).
  { apply gauss_upper; [lra|]. simpl INR. lra. }
  simpl pow in *. lra.
Qed.

End BoundFacts.

(** ** The floor of the densities *)

Module FloorFacts.
Import Np Scipy Projection Closed.
Open Scope R_scope.

(** C2, as stated, fails for the mixture: at the point -25, inside the
    integration domain, its value is below the floor 1e-6. *)
Lemma p_distribution_pdf_below_floor :
  p_distribution_pdf [-25] [] = Some [Fin (mixture (-25))]
  /\ mixture (-25) < 1e-6.
Proof.
  split; [apply (DensityFacts.p_closed_form [-25] [])|].
  pose proof BoundFacts.mixture_at_left_end as [_ H].
  simpl pow in H. lra.
Qed.

(** C2, as the code behaves.  Both densities return an array of the
    length of their input.  [p_distribution_pdf], whatever the keyword
    arguments, applies no floor: its entries are finite and strictly
    positive.  [q_distribution_pdf], given [loc] and a [scale > 0], has
    every entry finite and at least 1e-6.  In both cases the argument of
    the logarithm in the divergence is positive. *)
Theorem density_values_positive (x : list R) (kw : kwargs) (loc scale : R) :
  kwargs_get "loc" kw = Some loc -> kwargs_get "scale" kw = Some scale ->
  0 < scale ->
  (forall kw' : kwargs, exists v,
      p_distribution_pdf x kw' = Some v
      /\ length v = length x
      /\ Forall (finite_with (fun r => 0 < r)) v)
  /\ (exists v,
        q_distribution_pdf x kw = Some v
        /\ length v = length x
        /\ Forall (finite_with (fun r => 1e-6 <= r)) v).
Proof.
  intros Hl Hs Hpos. split.
  - intros kw'. eexists. split; [apply DensityFacts.p_closed_form|].
    split; [apply length_map|].
    apply Forall_map, Forall_forall. intros xi _.
    exists (mixture xi). split; [reflexivity | apply DensityFacts.mixture_pos].
  - eexists. split; [apply (DensityFacts.q_closed_form x kw loc scale Hl Hs Hpos)|].
    split; [apply length_map|].
    apply Forall_map, Forall_forall. intros xi _.
    exists (floored_gauss loc scale xi).
    split; [reflexivity | apply DensityFacts.floored_gauss_floor].
Qed.

Lemma density_values_positive_witness :
  (kwargs_get "loc" (params 0 5) = Some 0
   /\ kwargs_get "scale" (params 0 5) = Some 5
   /\ 0 < 5)
  /\ (forall kw' : kwargs, exists v,
        p_distribution_pdf [-25; 0; 10] kw' = Some v
        /\ length v = length [-25; 0; 10]
        /\ Forall (finite_with (fun r => 0 < r)) v)
  /\ (exists v,
        q_distribution_pdf [-25; 0; 10] (params 0 5) = Some v
        /\ length v = length [-25; 0; 10]
        /\ Forall (finite_with (fun r => 1e-6 <= r)) v).
Proof.
  split.
  - split; [reflexivity | split; [reflexivity | lra]].
  - apply (density_values_positive [-25; 0; 10] (params 0 5) 0 5);
      DensityFacts.kw_side.
Defined.

End FloorFacts.

(** ** The estimate under halving of the step *)

Module HalvingFacts.
Import Np Scipy Projection Closed.
Open Scope R_scope.

Lemma grid_size_eq (eps : R) (n : Z) :
  IZR n - 1 < 50 / eps <= IZR n -> grid_size eps = Z.to_nat n.
Proof. intros H. unfold grid_size. now rewrite (Zceil_eq n). Qed.

(** The objective of the moment projection in closed form: for a valid
    scale every value is finite, and the estimate is the real Riemann
    sum of [moment_term]. *)
Lemma moment_KL_closed_form (eps mu sigma : R) :
  eps <> 0 -> 0 < sigma ->
  calculate_KL_for_given_parameters p_distribution_pdf q_distribution_pdf
    eps [mu; sigma]
  = Some (Fin (eps * fold_right Rplus 0 (map (moment_term mu sigma) (grid eps)))).
Proof.
  intros Heps Hsig. rewrite ObjectiveFacts.KL_on_grid by exact Heps.
  unfold KL_summand.
  rewrite DensityFacts.p_closed_form.
  rewrite (DensityFacts.q_closed_form _ _ mu sigma) by (reflexivity || exact Hsig).
  cbn [bind].
  rewrite NpFacts.elementwise_same_length by now rewrite !length_map.
  cbn [bind].
  rewrite (NpFacts.zip_map_fin div Rdiv mixture (floored_gauss mu sigma)).
  2:{ intros xi _. apply NpFacts.div_fin.
      pose proof (DensityFacts.floored_gauss_pos mu sigma xi). lra. }
  rewrite map_map.
  rewrite (map_ext (fun xi => log (Fin (mixture xi / floored_gauss mu sigma xi)))
             (fun xi => Fin (ln (mixture xi / floored_gauss mu sigma xi)))).
  2:{ intros xi. apply NpFacts.log_fin. auto with density_pos. }
  rewrite NpFacts.elementwise_same_length by now rewrite !length_map.
  cbn [bind].
  rewrite (NpFacts.zip_map_fin mul Rmult mixture
             (fun xi => ln (mixture xi / floored_gauss mu sigma xi)))
    by reflexivity.
  change (fun x => Fin (mixture x * ln (mixture x / floored_gauss mu sigma x)))
    with (fun x => Fin (moment_term mu sigma x)).
  rewrite <- (map_map (moment_term mu sigma) Fin), NpFacts.sum_fin.
  reflexivity.
Qed.

Lemma ln_le_sub_1 (x : R) : 0 < x -> ln x <= x - 1.
Proof.
  intros H. pose proof (exp_ineq1_le (ln x)) as E.
  rewrite exp_ln in E by exact H. lra.
Qed.

Lemma ln_monotone (x y : R) : 0 < x -> x <= y -> ln x <= ln y.
Proof.
  intros Hx [Hlt | ->]; [left; now apply ln_increasing | lra].
Qed.

(** The term at the left end of the domain is negative and tiny. *)
Lemma moment_term_left_end :
  - (2 / 100000) <= moment_term 0 5 (-25) <= 0.
Proof.
  unfold moment_term.
  pose proof BoundFacts.mixture_at_left_end as [Hm0 Hm1].
  set (m := mixture (-25)) in *.
  pose proof (DensityFacts.floored_gauss_floor 0 5 (-25)) as Hq0.
  assert (Hq1 : floored_gauss 0 5 (-25) <= 1).
  { unfold floored_gauss. apply Rmax_lub; [lra|].
    apply Rle_trans with ((/ 2) ^ 12 / (2 * 5)).
    - apply BoundFacts.gauss_upper; [lra|]. simpl INR. lra.
    - simpl pow. lra. }
  set (q := floored_gauss 0 5 (-25)) in *.
  simpl pow in Hm1.
  assert (Hratio : 0 < m / q) by (apply Rdiv_lt_0_compat; lra).
  assert (Hup : ln (m / q) <= 0).
  { apply Rle_trans with (m / q - 1); [apply ln_le_sub_1; exact Hratio|].
    assert (m / q <= 1); [|lra].
    apply BoundFacts.div_le_of_le_mul; lra. }
  assert (Hlow : - 73 <= ln (m / q)).
  { apply Rle_trans with (ln m).
    - rewrite <- (ln_exp (- 73)). apply ln_monotone; [apply exp_pos|].
      pose proof (DensityFacts.gauss_pos 1 0.5 (-25) ltac:(lra)) as Hg1.
      pose proof (BoundFacts.gauss_exp 10 3 (-25) ltac:(lra)) as Hg.
      set (c := (-25 - 10) / 3 * ((-25 - 10) / 3) / 2) in Hg.
      assert (Hc : c < 69) by (unfold c; lra).
      pose proof (exp_pos (- c)) as He.
      pose proof BoundFacts.sqrt_2PI_bounds as [Hs2 Hs3].
      assert (H4 : exp (- INR 4) <= (/ 2) ^ 4)
        by apply BoundFacts.exp_neg_nat_bounds.
      assert (Hsplit : exp (- 73) <= exp (- INR 4) * exp (- c)).
      { rewrite <- exp_plus. left. apply exp_increasing. simpl INR. lra. }
      assert (Hgl : exp (- c) / 9 <= gauss 10 3 (-25)).
      { rewrite Hg. apply Rmult_le_compat_l; [lra|].
        apply Rinv_le_contravar; nra. }
      pose proof (exp_pos (- INR 4)) as He4.
      simpl pow in H4.
      assert (Hm : exp (- c) / 10 <= m) by (unfold m, mixture; lra).
      nra.
    - apply ln_monotone; [exact Hm0|].
      apply BoundFacts.le_div_of_mul_le; [lra | nra]. }
  split; nra.
Qed.

(** The term at the origin is negative and not small. *)
Lemma moment_term_origin : moment_term 0 5 0 <= - (4 / 1000).
Proof.
  unfold moment_term.
  assert (Hu1 : gauss 1 0.5 0 <= (/ 2) ^ 2 / (2 * 0.5))
    by (apply BoundFacts.gauss_upper; [lra | simpl INR; lra]).
  assert (Hu2 : gauss 10 3 0 <= (/ 2) ^ 5 / (2 * 3))
    by (apply BoundFacts.gauss_upper; [lra | simpl INR; lra]).
  assert (Hl1 : (/ 3) ^ 2 / (3 * 0.5) <= gauss 1 0.5 0)
    by (apply BoundFacts.gauss_lower; [lra | simpl INR; lra]).
  pose proof (DensityFacts.gauss_pos 10 3 0 ltac:(lra)) as Hp2.
  assert (Hq : (/ 3) ^ 0 / (3 * 5) <= floored_gauss 0 5 0).
  { apply Rle_trans with (gauss 0 5 0); [|apply Rmax_r].
    apply BoundFacts.gauss_lower; [lra | simpl INR; lra]. }
  simpl pow in *.
  assert (Hm : 74 / 10000 <= mixture 0 <= 297 / 10000) by (unfold mixture; lra).
  set (m := mixture 0) in *. set (q := floored_gauss 0 5 0) in *.
  assert (Hratio : 0 < m / q) by (apply Rdiv_lt_0_compat; lra).
  assert (Hle : m / q <= 45 / 100)
    by (apply BoundFacts.div_le_of_le_mul; lra).
  pose proof (ln_le_sub_1 (m / q) Hratio) as Hln.
  nra.
Qed.

Lemma grid_single_point (eps : R) : 50 <= eps -> grid eps = [-25].
Proof.
  intros H. unfold grid. rewrite (grid_size_eq eps 1).
  - simpl. f_equal. lra.
  - assert (0 < 50 / eps) by (apply Rdiv_lt_0_compat; lra).
    assert (50 / eps <= 1) by (apply BoundFacts.div_le_of_le_mul; lra).
    lra.
Qed.

Lemma grid_two_points : grid (100 / 4) = [-25; 0].
Proof.
  unfold grid. rewrite (grid_size_eq (100 / 4) 2) by lra.
  simpl. f_equal; [lra | f_equal; lra].
Qed.

(** C7, as stated, fails.  For the objective of the moment projection
    at its starting point (mean 0, scale 5) and [eps = 100]: the grids for
    100 and 50 are the single point -25, where the term is tiny, so the
    first halving changes the estimate by less than 0.001; the grid for
    25 adds the point 0, and the second halving changes it by more than
    0.09. *)
Lemma halving_can_grow :
  ~ halving_shrinks p_distribution_pdf q_distribution_pdf 0 5 100.
Proof.
  intros H.
  pose proof (moment_KL_closed_form 100 0 5 ltac:(lra) ltac:(lra)) as H1.
  pose proof (moment_KL_closed_form (100 / 2) 0 5 ltac:(lra) ltac:(lra)) as H2.
  pose proof (moment_KL_closed_form (100 / 4) 0 5 ltac:(lra) ltac:(lra)) as H4.
  specialize (H _ _ _ H1 H2 H4).
  rewrite !grid_single_point in H by lra. rewrite grid_two_points in H.
  cbn [map fold_right] in H.
  pose proof moment_term_left_end as [Ha Hb].
  pose proof moment_term_origin as Hc.
  set (a := moment_term 0 5 (-25)) in *. set (b := moment_term 0 5 0) in *.
  unfold Rabs in H.
  repeat destruct Rcase_abs in H; lra.
Qed.

Lemma mul_fin_finite (e : R) (s : float) (k : R) :
  mul (Fin e) s = Fin k -> exists r, s = Fin r /\ k = e * r.
Proof.
  destruct s as [r| | |]; simpl.
  - intros [= <-]. now exists r.
  - destruct (Req_dec_T e 0); [discriminate|].
    destruct (Rlt_dec 0 e); discriminate.
  - destruct (Req_dec_T e 0); [discriminate|].
    destruct (Rlt_dec 0 e); discriminate.
  - discriminate.
Qed.

(** C7, as the code behaves.  For steps of at least 200 the three grids
    (for [eps], [eps/2] and [eps/4]) are the single point -25, the
    estimate is proportional to the step, and the change under the first
    halving is at least the change under the second.  No such ordering
    is claimed for smaller steps. *)
Theorem halving_shrinks_on_wide_steps (f g : density) (mu sigma eps : R) :
  200 <= eps -> halving_shrinks f g mu sigma eps.
Proof.
  intros Heps k1 k2 k4. unfold KL_value.
  rewrite !ObjectiveFacts.KL_on_grid by lra.
  rewrite !grid_single_point by lra.
  destruct (KL_summand f g [-25] mu sigma) as [terms|]; cbn [bind];
    [|discriminate].
  intros [= E1] [= E2] [= E4].
  apply mul_fin_finite in E1 as (r1 & Hs1 & ->).
  apply mul_fin_finite in E2 as (r2 & Hs2 & ->).
  apply mul_fin_finite in E4 as (r4 & Hs4 & ->).
  rewrite Hs1 in Hs2, Hs4. injection Hs2 as <-. injection Hs4 as <-.
  replace (eps / 2 * r1 - eps * r1) with (- (eps / 2) * r1) by lra.
  replace (eps / 4 * r1 - eps / 2 * r1) with (- (eps / 4) * r1) by lra.
  rewrite !Rabs_mult, !Rabs_Ropp, !(Rabs_pos_eq (eps / _)) by lra.
  pose proof (Rabs_pos r1). nra.
Qed.

Lemma halving_shrinks_on_wide_steps_witness :
  (200 <= 200
   /\ KL_value p_distribution_pdf q_distribution_pdf 0 5 200
        (200 * (moment_term 0 5 (-25) + 0))
   /\ KL_value p_distribution_pdf q_distribution_pdf 0 5 (200 / 2)
        (200 / 2 * (moment_term 0 5 (-25) + 0))
   /\ KL_value p_distribution_pdf q_distribution_pdf 0 5 (200 / 4)
        (200 / 4 * (moment_term 0 5 (-25) + 0)))
  /\ Rabs (200 / 2 * (moment_term 0 5 (-25) + 0) - 200 * (moment_term 0 5 (-25) + 0))
     >= Rabs (200 / 4 * (moment_term 0 5 (-25) + 0)
              - 200 / 2 * (moment_term 0 5 (-25) + 0)).
Proof.
  assert (H200 : 200 <= 200) by lra.
  assert (V : forall eps, 50 <= eps ->
            KL_value p_distribution_pdf q_distribution_pdf 0 5 eps
              (eps * (moment_term 0 5 (-25) + 0))).
  { intros eps He. unfold KL_value.
    rewrite moment_KL_closed_form by lra.
    now rewrite grid_single_point by lra. }
  assert (V1 := V 200 ltac:(lra)).
  assert (V2 := V (200 / 2) ltac:(lra)).
  assert (V4 := V (200 / 4) ltac:(lra)).
  split; [split; [exact H200 | split; [exact V1 | split; [exact V2 | exact V4]]]|].
  exact (halving_shrinks_on_wide_steps p_distribution_pdf q_distribution_pdf
           0 5 200 H200 _ _ _ V1 V2 V4).
Defined.

Lemma bump_pos (x0 xi : R) : 0 < bump x0 xi.
Proof. unfold bump. destruct (Req_dec_T xi x0); lra. Qed.

Lemma bump_KL_closed_form (x0 eps mu sigma : R) :
  eps <> 0 ->
  calculate_KL_for_given_parameters unit_density (bump_density x0) eps [mu; sigma]
  = Some (Fin (eps * fold_right Rplus 0
                       (map (fun xi => 1 * ln (1 / bump x0 xi)) (grid eps)))).
Proof.
  intros Heps. rewrite ObjectiveFacts.KL_on_grid by exact Heps.
  unfold KL_summand, unit_density, bump_density. cbn [bind].
  rewrite NpFacts.elementwise_same_length by now rewrite !length_map.
  cbn [bind].
  rewrite (NpFacts.zip_map_fin div Rdiv (fun _ => 1) (bump x0)).
  2:{ intros xi _. apply NpFacts.div_fin. pose proof (bump_pos x0 xi). lra. }
  rewrite map_map.
  rewrite (map_ext (fun xi => log (Fin (1 / bump x0 xi)))
             (fun xi => Fin (ln (1 / bump x0 xi)))).
  2:{ intros xi. apply NpFacts.log_fin. apply Rdiv_lt_0_compat;
        [lra | apply bump_pos]. }
  rewrite NpFacts.elementwise_same_length by now rewrite !length_map.
  cbn [bind].
  rewrite (NpFacts.zip_map_fin mul Rmult (fun _ => 1)
             (fun xi => ln (1 / bump x0 xi))) by reflexivity.
  rewrite <- (map_map (fun xi => 1 * ln (1 / bump x0 xi)) Fin), NpFacts.sum_fin.
  reflexivity.
Qed.

Lemma bump_sum_off (x0 eps : R) (js : list nat) :
  (forall j, In j js -> -25 + INR j * eps <> x0) ->
  fold_right Rplus 0
    (map (fun xi => 1 * ln (1 / bump x0 xi))
         (map (fun i => -25 + INR i * eps) js)) = 0.
Proof.
  induction js as [|j js IH]; intros H; cbn [map fold_right]; [reflexivity|].
  rewrite IH by (intros k Hk; apply H; now right).
  unfold bump at 1. destruct (Req_dec_T _ x0) as [E|_].
  - exfalso. apply (H j); [now left | exact E].
  - replace (1 / 1) with 1 by lra. rewrite ln_1. lra.
Qed.

Lemma INR_not_fraction (j : nat) (c : R) : 0 < c < 1 -> INR j <> c.
Proof.
  intros Hc E. destruct j as [|j].
  - simpl in E. lra.
  - pose proof (pos_INR j). rewrite S_INR in E. lra.
Qed.

(** The bound 200 is sharp: for every smaller step there are densities
    for which the second halving changes the estimate and the first does
    not. *)
Lemma halving_threshold_is_sharp (eps : R) :
  0 < eps < 200 ->
  exists (f g : density) (mu sigma : R), ~ halving_shrinks f g mu sigma eps.
Proof.
  intros [Hpos Hlt].
  set (x0 := -25 + eps / 4).
  exists unit_density, (bump_density x0), 0, 1. intros H.
  pose proof (bump_KL_closed_form x0 eps 0 1 ltac:(lra)) as H1.
  pose proof (bump_KL_closed_form x0 (eps / 2) 0 1 ltac:(lra)) as H2.
  pose proof (bump_KL_closed_form x0 (eps / 4) 0 1 ltac:(lra)) as H4.
  specialize (H _ _ _ H1 H2 H4). clear H1 H2 H4.
  unfold grid in H at 1 2 4.
  rewrite !bump_sum_off in H.
  - (* the grid for eps/4 holds x0 exactly once, at index 1 *)
    pose proof (NpFacts.grid_spans (eps / 4) ltac:(lra)) as (Hn1 & _ & Hn).
    assert (Hn2 : (2 <= grid_size (eps / 4))%nat).
    { destruct (grid_size (eps / 4)) as [|[|n]]; [lia | | lia].
      simpl INR in Hn. lra. }
    unfold grid in H.
    replace (grid_size (eps / 4)) with (2 + (grid_size (eps / 4) - 2))%nat in H
      by lia.
    rewrite seq_app in H. cbn [seq app map fold_right] in H.
    rewrite bump_sum_off in H.
    + unfold bump in H.
      destruct (Req_dec_T (-25 + INR 0 * (eps / 4)) x0) as [E|_];
        [unfold x0 in E; simpl INR in E; lra|].
      destruct (Req_dec_T (-25 + INR 1 * (eps / 4)) x0) as [_|N];
        [|exfalso; apply N; unfold x0; simpl INR; lra].
      replace (1 / 1) with 1 in H by lra. rewrite ln_1 in H.
      replace (1 / 2) with (/ 2) in H by lra.
      rewrite ln_Rinv in H by lra.
      pose proof ln_lt_2 as Hl.
      unfold Rabs in H. repeat destruct Rcase_abs in H; nra.
    + intros j Hj E. apply in_seq in Hj. unfold x0 in E.
      assert (Hj2 : 2 <= INR j) by (apply (le_INR 2); lia).
      nra.
  - intros j _ E. unfold x0 in E.
    apply (INR_not_fraction j (/ 4)); [lra | nra].
  - intros j _ E. unfold x0 in E.
    apply (INR_not_fraction j (/ 2)); [lra | nra].
Qed.

End HalvingFacts.

(* ================================================================== *)
(** * Part III: further properties of the notebooks                    *)
(* ================================================================== *)

(** ** More on the batch generator *)

Module GeneratorMore.
Import MaxLikelihood Ascent.

Section Batches.
Context {A : Type}.
Variable array : list A.


Lemma slice_past_end (s : Z) :
  (Z.of_nat (length array) <= s)%Z -> Py.slice array (Some s) None = [].
Proof.
  intros H. unfold Py.slice, Py.clip_index.
  destruct (Z.ltb_spec s 0); [lia|].
  rewrite Z.min_r by lia. rewrite Nat2Z.id.
  rewrite skipn_all. now destruct (Z.to_nat _).
Qed.

Lemma slice_whole (e : Z) :
  (Z.of_nat (length array) <= e)%Z -> Py.slice array None (Some e) = array.
Proof.
  intros H. unfold Py.slice, Py.clip_index.
  destruct (Z.ltb_spec e 0); [lia|].
  rewrite Z.min_r by lia. rewrite Z.sub_0_r, Nat2Z.id. cbn [Z.to_nat skipn].
  apply firstn_all.
Qed.




End Batches.

Lemma pointer_range_from {A : Type} (array : list A) (batch_size : Z) :
  (1 <= batch_size <= Z.of_nat (length array))%Z ->
  forall (m : nat) (s : Z),
    (0 <= s <= Z.of_nat (length array))%Z ->
    (0 <= pointer_after array batch_size m s <= Z.of_nat (length array))%Z
    /\ (pointer_after array batch_size m s mod Z.of_nat (length array)
        = (s + Z.of_nat m * batch_size) mod Z.of_nat (length array))%Z.
Proof.
  intros Hbs.
  set (L := Z.of_nat (length array)) in *.
  induction m as [|m IH]; intros s Hs.
  - cbn [pointer_after]. split; [lia | f_equal; lia].
  - cbn [pointer_after].
    assert (E : snd (data_generator_step array batch_size s)
                = if (s + batch_size - L <=? 0)%Z
                  then (s + batch_size)%Z else (s + batch_size - L)%Z).
    { unfold data_generator_step. fold L.
      now destruct (s + batch_size - L <=? 0)%Z. }
    rewrite E. clear E.
    destruct (Z.leb_spec (s + batch_size - L) 0) as [Hd|Hd].
    + destruct (IH (s + batch_size)%Z ltac:(lia)) as [Hin Hmod].
      split; [exact Hin|]. rewrite Hmod. f_equal. lia.
    + destruct (IH (s + batch_size - L)%Z ltac:(lia)) as [Hin Hmod].
      split; [exact Hin|]. rewrite Hmod.
      replace (s + Z.of_nat (S m) * batch_size)%Z
        with (s + batch_size - L + Z.of_nat m * batch_size + 1 * L)%Z by lia.
      now rewrite Z.mod_add by lia.
Qed.

(** X1.  For a batch size between 1 and the length [L] of the array the
    pointer of the generator never leaves [0 .. L], and after [n] batches
    it is congruent to [n * batch_size] modulo [L]: the slices taken are
    always within the array. *)
Theorem pointer_stays_in_array {A : Type} (array : list A) (batch_size : Z)
    (n : nat) :
  (1 <= batch_size <= Z.of_nat (length array))%Z ->
  (0 <= pointer_after array batch_size n 0 <= Z.of_nat (length array))%Z
  /\ (pointer_after array batch_size n 0 mod Z.of_nat (length array)
      = (Z.of_nat n * batch_size) mod Z.of_nat (length array))%Z.
Proof.
  intros Hbs.
  destruct (pointer_range_from array batch_size Hbs n 0%Z ltac:(lia))
    as [Hin Hmod].
  split; [exact Hin|]. rewrite Hmod. f_equal.
Qed.

Lemma pointer_stays_in_array_witness :
  (1 <= 2 <= Z.of_nat (length [10; 20; 30]%nat))%Z
  /\ pointer_after [10; 20; 30]%nat 2 5 0 = 1%Z
  /\ ((0 <= pointer_after [10; 20; 30]%nat 2 5 0
          <= Z.of_nat (length [10; 20; 30]%nat))%Z
      /\ (pointer_after [10; 20; 30]%nat 2 5 0
            mod Z.of_nat (length [10; 20; 30]%nat)
          = (Z.of_nat 5 * 2) mod Z.of_nat (length [10; 20; 30]%nat))%Z).
Proof.
  split; [simpl; lia|]. split; [reflexivity|].
  apply (pointer_stays_in_array [10; 20; 30]%nat 2 5). simpl. lia.
Defined.

(** X2.  Full-batch mode: when the batch size is the length of the
    (non-empty) array, every batch is the array itself, in its order. *)
Theorem full_batch_is_the_array {A : Type} (array : list A) (n : nat) :
  (1 <= length array)%nat ->
  data_generator array (Z.of_nat (length array)) n = repeat array n.
Proof.
  intros HL. unfold data_generator.
  set (L := Z.of_nat (length array)).
  assert (Hend : forall m, batches_from array L m L = repeat array m).
  { induction m as [|m IH]; [reflexivity|].
    cbn [batches_from repeat]. unfold data_generator_step. fold L.
    destruct (Z.leb_spec (L + L - L) 0); [lia|].
    rewrite slice_past_end, slice_whole by (fold L; lia).
    replace (L + L - L)%Z with L by lia.
    cbn [app]. now rewrite IH. }
  destruct n as [|n]; [reflexivity|].
  cbn [batches_from repeat]. unfold data_generator_step. fold L.
  destruct (Z.leb_spec (0 + L - L) 0); [|lia].
  replace (0 + L)%Z with L by lia. unfold L at 1.
  change 0%Z with (Z.of_nat 0).
  rewrite (PyFacts.slice_inner array 0 (length array)) by lia.
  rewrite Nat.sub_0_r, skipn_O, firstn_all.
  now rewrite Hend.
Qed.

Lemma full_batch_is_the_array_witness :
  (1 <= length [10; 20; 30]%nat)%nat
  /\ data_generator [10; 20; 30]%nat (Z.of_nat (length [10; 20; 30]%nat)) 2
     = repeat [10; 20; 30]%nat 2.
Proof.
  split; [simpl; lia|].
  apply (full_batch_is_the_array [10; 20; 30]%nat 2). simpl. lia.
Defined.



End GeneratorMore.

(** ** The learning-rate schedule *)

Module LearningRateFacts.
Import Ascent.
Open Scope R_scope.

(** On its intended domain (a positive divisor, a step that is not
    negative) the schedule is the real power it spells out. *)
Lemma learning_rate_value (_step _start_lr _divisor _exponent : R) :
  0 < _divisor -> 0 <= _step ->
  calculate_learning_rate _step _start_lr _divisor _exponent
  = Some (Rpower (1 + _step / _divisor) (- _exponent) * _start_lr).
Proof.
  intros Hd Hs. unfold calculate_learning_rate, py_pow.
  destruct (Req_dec_T _divisor 0); [lra|].
  assert (0 <= _step / _divisor) by (apply Rle_mult_inv_pos; assumption).
  destruct (Rlt_dec 0 (1 + _step / _divisor)); [reflexivity | lra].
Qed.

Lemma scale_decreases (b1 b2 e : R) :
  0 < b1 -> b1 < b2 -> 0 < e -> Rpower b2 (- e) < Rpower b1 (- e).
Proof.
  intros H1 H12 He. unfold Rpower. apply exp_increasing.
  pose proof (ln_increasing b1 b2 H1 H12). nra.
Qed.

Lemma learning_rate_at_zero (_start_lr _divisor _exponent : R) :
  0 < _divisor ->
  calculate_learning_rate 0 _start_lr _divisor _exponent = Some _start_lr.
Proof.
  intros Hd. rewrite learning_rate_value by lra.
  replace (1 + 0 / _divisor) with 1 by (field; lra).
  unfold Rpower. rewrite ln_1, Rmult_0_r, exp_0. f_equal. lra.
Qed.

Lemma scale_in_range (b e : R) : 1 <= b -> 0 < e -> 0 < Rpower b (- e) <= 1.
Proof.
  intros Hb He. split; [apply exp_pos|].
  assert (H1 : Rpower 1 (- e) = 1)
    by (unfold Rpower; rewrite ln_1, Rmult_0_r; apply exp_0).
  destruct Hb as [Hb | <-]; [|lra].
  left. rewrite <- H1. apply scale_decreases; lra.
Qed.

(** X4.  With a positive divisor, a positive exponent and a positive
    initial rate, the learning rate starts at [_start_lr] (step 0) and at
    every later step stays strictly between 0 and [_start_lr]. *)
Theorem learning_rate_bounded (_step _start_lr _divisor _exponent : R) :
  0 < _divisor -> 0 < _exponent -> 0 < _start_lr -> 0 <= _step ->
  calculate_learning_rate 0 _start_lr _divisor _exponent = Some _start_lr
  /\ exists lr : R,
       calculate_learning_rate _step _start_lr _divisor _exponent = Some lr
       /\ 0 < lr <= _start_lr
       /\ (0 < _step -> lr < _start_lr).
Proof.
  intros Hd He Hl Hs.
  assert (H1 : Rpower 1 (- _exponent) = 1).
  { unfold Rpower. rewrite ln_1, Rmult_0_r. apply exp_0. }
  split.
  - rewrite learning_rate_value by lra.
    replace (1 + 0 / _divisor) with 1 by (field; lra).
    rewrite H1. f_equal. lra.
  - rewrite learning_rate_value by assumption.
    eexists. split; [reflexivity|].
    assert (Hq : 0 <= _step / _divisor) by (apply Rle_mult_inv_pos; assumption).
    assert (Hpos : 0 < Rpower (1 + _step / _divisor) (- _exponent))
      by apply exp_pos.
    assert (Hle : 0 < _step -> Rpower (1 + _step / _divisor) (- _exponent) < 1).
    { intros Hs'. rewrite <- H1. apply scale_decreases; try lra.
      assert (0 < _step / _divisor) by (apply Rdiv_lt_0_compat; assumption).
      lra. }
    split; [split; [nra|] | intros Hs'; specialize (Hle Hs'); nra].
    destruct Hs as [Hs | <-].
    + specialize (Hle Hs). nra.
    + replace (1 + 0 / _divisor) with 1 by (field; lra). rewrite H1. lra.
Qed.

Lemma learning_rate_bounded_witness :
  (0 < default_divisor /\ 0 < default_exponent /\ 0 < default_start_lr /\ 0 <= 100)
  /\ calculate_learning_rate 0 default_start_lr default_divisor default_exponent
     = Some default_start_lr
  /\ exists lr : R,
       calculate_learning_rate 100 default_start_lr default_divisor
         default_exponent = Some lr
       /\ 0 < lr <= default_start_lr
       /\ (0 < 100 -> lr < default_start_lr).
Proof.
  unfold default_divisor, default_exponent, default_start_lr.
  split; [lra|].
  apply (learning_rate_bounded 100 1e-3 100 1.5); lra.
Defined.

(** X5.  With a positive divisor, a positive exponent and a positive
    initial rate, the learning rate strictly decreases from one step to
    any later step. *)
Theorem learning_rate_decreases (s1 s2 _start_lr _divisor _exponent : R) :
  0 < _divisor -> 0 < _exponent -> 0 < _start_lr -> 0 <= s1 -> s1 < s2 ->
  exists lr1 lr2 : R,
    calculate_learning_rate s1 _start_lr _divisor _exponent = Some lr1
    /\ calculate_learning_rate s2 _start_lr _divisor _exponent = Some lr2
    /\ lr2 < lr1.
Proof.
  intros Hd He Hl Hs1 Hs12.
  rewrite !learning_rate_value by lra.
  eexists. eexists. split; [reflexivity|]. split; [reflexivity|].
  apply Rmult_lt_compat_r; [exact Hl|].
  assert (0 <= s1 / _divisor) by (apply Rle_mult_inv_pos; assumption).
  assert (s1 / _divisor < s2 / _divisor).
  { unfold Rdiv. apply Rmult_lt_compat_r; [apply Rinv_0_lt_compat|]; lra. }
  apply scale_decreases; lra.
Qed.

Lemma learning_rate_decreases_witness :
  (0 < 100 /\ 0 < 1.1 /\ 0 < 1e-3 /\ 0 <= 3 /\ 3 < 4)
  /\ exists lr1 lr2 : R,
       calculate_learning_rate 3 1e-3 100 1.1 = Some lr1
       /\ calculate_learning_rate 4 1e-3 100 1.1 = Some lr2
       /\ lr2 < lr1.
Proof.
  split; [lra|].
  apply (learning_rate_decreases 3 4 1e-3 100 1.1); lra.
Defined.

End LearningRateFacts.

(** ** The log-likelihood and its gradient *)

Module LikelihoodFacts.
Import MaxLikelihood Ascent.
Open Scope R_scope.

Lemma ln_sqrt_half (x : R) : 0 < x -> ln (sqrt x) = ln x / 2.
Proof.
  intros H. rewrite <- (Rpower_sqrt x H). unfold Rpower. rewrite ln_exp. lra.
Qed.

(** One entry of [norm.logpdf] at precision [tau > 0]. *)
Lemma logpdf_entry (xi mu tau : R) :
  0 < tau ->
  - (((xi - mu) / (1 / sqrt tau)) * ((xi - mu) / (1 / sqrt tau))) / 2
  - ln (2 * PI) / 2 - ln (1 / sqrt tau)
  = ln tau / 2 - ln (2 * PI) / 2 - tau / 2 * Rsqr (xi - mu).
Proof.
  intros Ht.
  assert (Hs : 0 < sqrt tau) by now apply sqrt_lt_R0.
  assert (Hss : sqrt tau * sqrt tau = tau) by (apply sqrt_sqrt; lra).
  replace (1 / sqrt tau) with (/ sqrt tau) by lra.
  rewrite ln_Rinv by exact Hs. rewrite ln_sqrt_half by exact Ht.
  replace ((xi - mu) / / sqrt tau * ((xi - mu) / / sqrt tau))
    with ((sqrt tau * sqrt tau) * Rsqr (xi - mu))
    by (unfold Rsqr; field; lra).
  rewrite Hss. lra.
Qed.

Lemma scale_of_precision (tau : R) :
  0 < tau -> Np.div (Np.Fin 1) (np_sqrt (Np.Fin tau)) = Np.Fin (1 / sqrt tau).
Proof.
  intros Ht. unfold np_sqrt. destruct (Rlt_dec tau 0); [lra|].
  apply NpFacts.div_fin. pose proof (sqrt_lt_R0 tau Ht). lra.
Qed.

Lemma log_likelihood_value (_data : list R) (_mu _tau : R) :
  0 < _tau ->
  calculate_log_likelihood _data _mu _tau
  = Np.Fin (log_likelihood _data _mu _tau).
Proof.
  intros Ht. unfold calculate_log_likelihood, norm_logpdf.
  rewrite scale_of_precision by exact Ht.
  assert (Hs : 0 < 1 / sqrt _tau).
  { apply Rdiv_lt_0_compat; [lra | now apply sqrt_lt_R0]. }
  destruct (Rlt_dec 0 (1 / sqrt _tau)) as [_|N]; [|contradiction].
  rewrite <- (map_map _ Np.Fin), NpFacts.sum_fin. f_equal.
  unfold log_likelihood, sum_sq, np_sum.
  induction _data as [|x xs IH]; cbn [map fold_right length].
  - simpl INR. lra.
  - rewrite IH, logpdf_entry by exact Ht.
    rewrite S_INR. lra.
Qed.

(** X6.  For a positive precision the log-likelihood computed through
    [norm.logpdf] is finite and has the closed form
    [n/2 * log(tau) - n/2 * log(2*pi) - tau/2 * sum((x - mu)**2)]. *)
Theorem log_likelihood_closed_form (_data : list R) (_mu _tau : R) :
  0 < _tau ->
  calculate_log_likelihood _data _mu _tau
  = Np.Fin (INR (length _data) / 2 * ln _tau
            - INR (length _data) / 2 * ln (2 * PI)
            - _tau / 2 * np_sum (map (fun x => Rsqr (x - _mu)) _data)).
Proof. exact (log_likelihood_value _data _mu _tau). Qed.

Lemma log_likelihood_closed_form_witness :
  0 < 2
  /\ calculate_log_likelihood [1; 3] 1 2
     = Np.Fin (INR (length [1; 3]) / 2 * ln 2
               - INR (length [1; 3]) / 2 * ln (2 * PI)
               - 2 / 2 * np_sum (map (fun x => Rsqr (x - 1)) [1; 3])).
Proof.
  split; [lra | apply (log_likelihood_closed_form [1; 3] 1 2); lra].
Defined.

Lemma log_likelihood_negative_precision (_data : list R) (_mu _tau : R) :
  _data <> [] -> _tau < 0 -> calculate_log_likelihood _data _mu _tau = Np.NaN.
Proof.
  intros Hd Hneg. unfold calculate_log_likelihood, norm_logpdf, np_sqrt.
  destruct (Rlt_dec _tau 0); [|lra]. cbn [Np.div].
  destruct _data as [|x xs]; [congruence|]. reflexivity.
Qed.

(** X7.  Outside the valid precisions the log-likelihood of a non-empty
    data set is not a number: minus infinity at precision 0 (the scale
    is infinite) and NaN at a negative precision (the square root is
    NaN).  On an empty data set it is 0 whatever the precision. *)
Theorem log_likelihood_invalid_precision (_data : list R) (_mu _tau : R) :
  _data <> [] ->
  calculate_log_likelihood _data _mu 0 = Np.NInf
  /\ (_tau < 0 -> calculate_log_likelihood _data _mu _tau = Np.NaN)
  /\ calculate_log_likelihood [] _mu _tau = Np.Fin 0.
Proof.
  intros Hd. unfold calculate_log_likelihood, norm_logpdf, np_sqrt.
  split; [|split].
  - destruct (Rlt_dec 0 0); [lra|]. rewrite sqrt_0. cbn [Np.div].
    destruct (Req_dec_T 0 0); [|lra].
    destruct (Req_dec_T 1 0); [lra|]. destruct (Rlt_dec 0 1); [|lra].
    clear -Hd. induction _data as [|x [|y ys] IH]; [congruence | reflexivity |].
    cbn [map Np.sum fold_right] in *. rewrite IH by discriminate. reflexivity.
  - intros Hneg. destruct (Rlt_dec _tau 0); [|lra]. cbn [Np.div].
    destruct _data as [|x xs]; [congruence|]. reflexivity.
  - reflexivity.
Qed.

Lemma log_likelihood_invalid_precision_witness :
  ([1; 3] <> [])
  /\ calculate_log_likelihood [1; 3] 0 0 = Np.NInf
  /\ (-1 < 0 -> calculate_log_likelihood [1; 3] 0 (-1) = Np.NaN)
  /\ calculate_log_likelihood [] 0 (-1) = Np.Fin 0.
Proof.
  split; [discriminate|].
  apply (log_likelihood_invalid_precision [1; 3] 0 (-1)). discriminate.
Defined.

End LikelihoodFacts.

(** ** The maximum-likelihood estimate *)

Module EstimateFacts.
Import MaxLikelihood Ascent.
Open Scope R_scope.

Lemma deviations_shift (_data : list R) (c h : R) :
  np_sum (map (fun x => x - (c + h)) _data)
  = np_sum (map (fun x => x - c) _data) - INR (length _data) * h.
Proof.
  unfold np_sum.
  induction _data as [|x xs IH]; cbn [map fold_right length].
  - simpl INR. lra.
  - rewrite IH, S_INR. lra.
Qed.

(** The sum of squares about a shifted centre. *)
Lemma sum_sq_shift (_data : list R) (c h : R) :
  sum_sq _data (c + h)
  = sum_sq _data c - 2 * h * np_sum (map (fun x => x - c) _data)
    + INR (length _data) * (h * h).
Proof.
  unfold sum_sq, np_sum.
  induction _data as [|x xs IH]; cbn [map fold_right length].
  - simpl INR. lra.
  - rewrite IH, S_INR. unfold Rsqr. lra.
Qed.

Lemma deviations_from_mean (_data : list R) :
  _data <> [] -> np_sum (map (fun x => x - mean _data) _data) = 0.
Proof.
  intros Hd. pose proof (GradientFacts.batch_length_nonzero _data Hd) as Hn.
  replace (mean _data) with (0 + mean _data) by lra.
  rewrite deviations_shift.
  replace (map (fun x => x - 0) _data) with _data
    by (rewrite <- (map_id _data) at 1; apply map_ext; intros; lra).
  unfold mean. field. exact Hn.
Qed.

Lemma sum_sq_nonneg (_data : list R) (c : R) : 0 <= sum_sq _data c.
Proof.
  unfold sum_sq, np_sum.
  induction _data as [|x xs IH]; cbn [map fold_right]; [lra|].
  pose proof (Rle_0_sqr (x - c)). lra.
Qed.

(** The sample mean minimises the sum of squares. *)
Lemma sum_sq_about_mean (_data : list R) (mu : R) :
  _data <> [] ->
  sum_sq _data mu
  = sum_sq _data (mean _data)
    + INR (length _data) * ((mu - mean _data) * (mu - mean _data)).
Proof.
  intros Hd.
  replace mu with (mean _data + (mu - mean _data)) at 1 by lra.
  rewrite sum_sq_shift, deviations_from_mean by exact Hd. lra.
Qed.

(** X8.  The log-likelihood of a data set that is not constant is
    greatest at the closed-form estimate: for every [_mu] and every
    positive [_tau] it is at most its value at the sample mean and the
    precision [n / sum((x - mean)**2)]. *)
Theorem log_likelihood_maximum (_data : list R) (_mu _tau : R) :
  _data <> [] -> 0 < sum_sq _data (mean _data) -> 0 < _tau ->
  exists a b : R,
    calculate_log_likelihood _data _mu _tau = Np.Fin a
    /\ calculate_log_likelihood _data (mean _data)
         (INR (length _data) / sum_sq _data (mean _data)) = Np.Fin b
    /\ a <= b.
Proof.
  intros Hd Hss Ht.
  pose proof (GradientFacts.batch_length_nonzero _data Hd) as Hn0.
  assert (Hn : 0 < INR (length _data)) by (pose proof (pos_INR (length _data)); lra).
  set (n := INR (length _data)) in *.
  set (ss := sum_sq _data (mean _data)) in *.
  assert (Hstar : 0 < n / ss) by (apply Rdiv_lt_0_compat; assumption).
  rewrite !LikelihoodFacts.log_likelihood_value by assumption.
  eexists. eexists. split; [reflexivity|]. split; [reflexivity|].
  unfold log_likelihood. fold n. fold ss.
  rewrite (sum_sq_about_mean _data _mu Hd). fold n. fold ss.
  (* the precision: log u <= u - 1 at u = tau / (n / ss) *)
  assert (Hu : 0 < _tau / (n / ss)) by (apply Rdiv_lt_0_compat; assumption).
  pose proof (HalvingFacts.ln_le_sub_1 _ Hu) as Hln.
  replace (_tau / (n / ss)) with (_tau * / (n / ss)) in Hln at 1 by reflexivity.
  rewrite ln_mult, ln_Rinv in Hln by (try apply Rinv_0_lt_compat; assumption).
  assert (Hq : _tau / (n / ss) = _tau * ss / n) by (field; lra).
  assert (Hs : n / ss / 2 * ss = n / 2) by (field; lra).
  assert (Hm : 0 <= n * ((_mu - mean _data) * (_mu - mean _data)))
    by (apply Rmult_le_pos; [lra | apply Rle_0_sqr]).
  rewrite Hs. rewrite Hq in Hln.
  assert (Hd2 : _tau * ss / n * (n / 2) = _tau / 2 * ss) by (field; lra).
  nra.
Qed.

Lemma log_likelihood_maximum_witness :
  ([1; 3] <> [] /\ 0 < sum_sq [1; 3] (mean [1; 3]) /\ 0 < 5)
  /\ exists a b : R,
       calculate_log_likelihood [1; 3] 0 5 = Np.Fin a
       /\ calculate_log_likelihood [1; 3] (mean [1; 3])
            (INR (length [1; 3]) / sum_sq [1; 3] (mean [1; 3])) = Np.Fin b
       /\ a <= b.
Proof.
  assert (Hss : 0 < sum_sq [1; 3] (mean [1; 3])).
  { unfold sum_sq, mean, np_sum, Rsqr. simpl. lra. }
  split; [split; [discriminate | split; [exact Hss | lra]]|].
  apply (log_likelihood_maximum [1; 3] 0 5); [discriminate | exact Hss | lra].
Defined.

(** X10.  At the closed-form estimate (the sample mean and the precision
    [n / sum((x - mean)**2)] of the batch) both gradients returned by
    [calculate_gradient] vanish, whatever [N]. *)
Theorem gradient_vanishes_at_estimate (N : R) (_data : list R) :
  _data <> [] -> 0 < sum_sq _data (mean _data) ->
  calculate_gradient N _data (mean _data)
    (INR (length _data) / sum_sq _data (mean _data))
  = Some ((0, 0), (0, 0)).
Proof.
  intros Hd Hss.
  pose proof (GradientFacts.batch_length_nonzero _data Hd) as Hn0.
  assert (Hn : 0 < INR (length _data)) by (pose proof (pos_INR (length _data)); lra).
  assert (Hstar : 0 < INR (length _data) / sum_sq _data (mean _data))
    by (apply Rdiv_lt_0_compat; assumption).
  unfold calculate_gradient.
  destruct (Req_dec_T _ 0) as [E|_]; [lra|].
  destruct _data as [|x xs] eqn:Ed; [congruence|]. rewrite <- Ed in *.
  rewrite (deviations_from_mean _data Hd).
  fold (sum_sq _data (mean _data)).
  set (n := INR (length _data)) in *. set (ss := sum_sq _data (mean _data)) in *.
  assert (Hpt : 0.5 * n / (n / ss) - 0.5 * ss = 0) by (field; lra).
  rewrite Hpt. unfold Rdiv. rewrite !Rmult_0_r, !Rmult_0_l. reflexivity.
Qed.

Lemma gradient_vanishes_at_estimate_witness :
  ([1; 3] <> [] /\ 0 < sum_sq [1; 3] (mean [1; 3]))
  /\ calculate_gradient 100 [1; 3] (mean [1; 3])
       (INR (length [1; 3]) / sum_sq [1; 3] (mean [1; 3]))
     = Some ((0, 0), (0, 0)).
Proof.
  assert (Hss : 0 < sum_sq [1; 3] (mean [1; 3])).
  { unfold sum_sq, mean, np_sum, Rsqr. simpl. lra. }
  split; [split; [discriminate | exact Hss]|].
  apply (gradient_vanishes_at_estimate 100 [1; 3]); [discriminate | exact Hss].
Defined.

End EstimateFacts.

(** ** The euclidean gradient is a gradient *)

Module DerivativeFacts.
Import MaxLikelihood Ascent.
Open Scope R_scope.

(** The derivative of the log-likelihood in the mean. *)
Lemma d_log_likelihood_d_mu (_data : list R) (mu tau : R) :
  derivable_pt_lim (fun m => log_likelihood _data m tau) mu
    (tau * np_sum (map (fun x => x - mu) _data)).
Proof.
  intros eps Heps.
  set (n := INR (length _data)).
  assert (Hn : 0 <= n) by apply pos_INR.
  set (K := Rabs tau * n / 2 + 1).
  assert (HK : 0 < K) by (unfold K; pose proof (Rabs_pos tau); nra).
  assert (Hdelta : 0 < eps / K) by (apply Rdiv_lt_0_compat; assumption).
  exists (mkposreal (eps / K) Hdelta). cbn [pos]. intros h Hh Hsmall.
  unfold log_likelihood. rewrite EstimateFacts.sum_sq_shift. fold n.
  replace ((n / 2 * ln tau - n / 2 * ln (2 * PI)
            - tau / 2 * (sum_sq _data mu
                         - 2 * h * np_sum (map (fun x => x - mu) _data)
                         + n * (h * h))
            - (n / 2 * ln tau - n / 2 * ln (2 * PI) - tau / 2 * sum_sq _data mu)) / h
           - tau * np_sum (map (fun x => x - mu) _data))
    with (- (tau * n / 2) * h) by (field; exact Hh).
  rewrite Rabs_mult, Rabs_Ropp.
  replace (Rabs (tau * n / 2)) with (Rabs tau * n / 2).
  2:{ unfold Rdiv. rewrite !Rabs_mult, (Rabs_pos_eq n Hn), (Rabs_pos_eq (/ 2)); lra. }
  assert (Hb : K * Rabs h < eps).
  { replace eps with (K * (eps / K)) by (field; lra).
    apply Rmult_lt_compat_l; assumption. }
  pose proof (Rabs_pos h). unfold K in Hb. nra.
Qed.

(** The derivative of the log-likelihood in the precision. *)
Lemma d_log_likelihood_d_tau (_data : list R) (mu tau : R) :
  0 < tau ->
  derivable_pt_lim (fun t => log_likelihood _data mu t) tau
    (0.5 * INR (length _data) / tau - 0.5 * sum_sq _data mu).
Proof.
  intros Ht.
  set (n := INR (length _data)). set (ss := sum_sq _data mu).
  pose proof (derivable_pt_lim_scal ln (n / 2) tau (/ tau)
                (derivable_pt_lim_ln tau Ht)) as D1.
  pose proof (derivable_pt_lim_const (n / 2 * ln (2 * PI)) tau) as D2.
  pose proof (derivable_pt_lim_scal id (ss / 2) tau 1
                (derivable_pt_lim_id tau)) as D3.
  pose proof (derivable_pt_lim_minus _ _ _ _ _
                (derivable_pt_lim_minus _ _ _ _ _ D1 D2) D3) as D.
  replace (0.5 * n / tau - 0.5 * ss) with (n / 2 * / tau - 0 - ss / 2 * 1)
    by (unfold Rdiv; lra).
  eapply derivable_pt_lim_ext; [|exact D].
  intros t. unfold log_likelihood, minus_fct, mult_real_fct, fct_cte, id.
  fold n. fold ss. lra.
Qed.

Lemma derivable_scaled (f : R -> R) (c x l : R) :
  derivable_pt_lim f x l -> derivable_pt_lim (fun y => c * f y) x (c * l).
Proof.
  intros D. eapply derivable_pt_lim_ext; [|apply (derivable_pt_lim_scal f c x l D)].
  intros y. reflexivity.
Qed.

(** X9.  For a non-empty batch and a positive precision, the euclidean
    gradient returned by [calculate_gradient] is the gradient of the
    batch log-likelihood scaled by [N / len(_data)]: its first component
    is the partial derivative in the mean, its second the partial
    derivative in the precision.  (On positive precisions
    [calculate_log_likelihood] is the real function [log_likelihood].) *)
Theorem euclidean_gradient_is_gradient (N : R) (_data : list R) (_mu _tau : R) :
  _data <> [] -> 0 < _tau ->
  exists natural_gradient euclidean_gradient : R * R,
    calculate_gradient N _data _mu _tau = Some (natural_gradient, euclidean_gradient)
    /\ (forall m t : R, 0 < t ->
        calculate_log_likelihood _data m t = Np.Fin (log_likelihood _data m t))
    /\ derivable_pt_lim
         (fun m => N / INR (length _data) * log_likelihood _data m _tau)
         _mu (fst euclidean_gradient)
    /\ derivable_pt_lim
         (fun t => N / INR (length _data) * log_likelihood _data _mu t)
         _tau (snd euclidean_gradient).
Proof.
  intros Hd Ht. unfold calculate_gradient.
  destruct (Req_dec_T _tau 0) as [E|_]; [lra|].
  destruct _data as [|x xs] eqn:Ed; [congruence|]. rewrite <- Ed in *.
  eexists. eexists. split; [reflexivity|]. cbn [fst snd].
  split; [intros m t; apply LikelihoodFacts.log_likelihood_value|]. split.
  - apply derivable_scaled, d_log_likelihood_d_mu.
  - apply derivable_scaled. fold (sum_sq _data _mu).
    apply d_log_likelihood_d_tau. exact Ht.
Qed.

Lemma euclidean_gradient_is_gradient_witness :
  ([1; 3] <> [] /\ 0 < 2)
  /\ exists natural_gradient euclidean_gradient : R * R,
       calculate_gradient 100 [1; 3] 1 2 = Some (natural_gradient, euclidean_gradient)
       /\ (forall m t : R, 0 < t ->
           calculate_log_likelihood [1; 3] m t
           = Np.Fin (log_likelihood [1; 3] m t))
       /\ derivable_pt_lim
            (fun m => 100 / INR (length [1; 3]) * log_likelihood [1; 3] m 2)
            1 (fst euclidean_gradient)
       /\ derivable_pt_lim
            (fun t => 100 / INR (length [1; 3]) * log_likelihood [1; 3] 1 t)
            2 (snd euclidean_gradient).
Proof.
  split; [split; [discriminate | lra]|].
  apply (euclidean_gradient_is_gradient 100 [1; 3] 1 2); [discriminate | lra].
Defined.

End DerivativeFacts.

(** ** The iterations *)

Module LoopFacts.
Import MaxLikelihood Ascent AscentLoop.
Open Scope R_scope.

Lemma deviations_about_mean (_data : list R) (mu : R) :
  _data <> [] ->
  np_sum (map (fun x => x - mu) _data) = INR (length _data) * (mean _data - mu).
Proof.
  intros Hd. pose proof (GradientFacts.batch_length_nonzero _data Hd) as Hn.
  rewrite (map_ext (fun x => x - mu)
             (fun x => x - (mean _data + (mu - mean _data))))
    by (intros; lra).
  rewrite EstimateFacts.deviations_shift,
    EstimateFacts.deviations_from_mean by exact Hd.
  lra.
Qed.

Lemma natural_mu_component (N : R) (_data : list R) (_mu _tau : R) :
  _data <> [] -> _tau <> 0 ->
  exists natural_gradient euclidean_gradient : R * R,
    calculate_gradient N _data _mu _tau = Some (natural_gradient, euclidean_gradient)
    /\ fst natural_gradient = INR (length _data) * (mean _data - _mu).
Proof.
  intros Hd Ht. unfold calculate_gradient.
  destruct (Req_dec_T _tau 0) as [E|_]; [contradiction|].
  destruct _data as [|x xs] eqn:Ed; [congruence|]. rewrite <- Ed in *.
  eexists. eexists. split; [reflexivity|]. cbn [fst].
  rewrite deviations_about_mean by exact Hd. field. exact Ht.
Qed.

(** X11.  The mean component of the natural gradient does not depend on
    the precision: it is [len(_data)] times the offset of the batch mean
    from [_mu].  A step of size [lr] along it therefore multiplies the
    offset of [_mu] from the batch mean by [1 - lr * len(_data)]. *)
Theorem natural_gradient_points_to_mean (N : R) (_data : list R)
    (_mu _tau lr : R) :
  _data <> [] -> _tau <> 0 ->
  exists natural_gradient euclidean_gradient : R * R,
    calculate_gradient N _data _mu _tau = Some (natural_gradient, euclidean_gradient)
    /\ fst natural_gradient = INR (length _data) * (mean _data - _mu)
    /\ (_mu + lr * fst natural_gradient) - mean _data
       = (1 - lr * INR (length _data)) * (_mu - mean _data).
Proof.
  intros Hd Ht.
  destruct (natural_mu_component N _data _mu _tau Hd Ht) as (ng & eg & E & Hg).
  exists ng, eg. split; [exact E|]. split; [exact Hg|]. rewrite Hg. lra.
Qed.

Lemma natural_gradient_points_to_mean_witness :
  ([1; 3] <> [] /\ 7 <> 0)
  /\ exists natural_gradient euclidean_gradient : R * R,
       calculate_gradient 100 [1; 3] 0 7 = Some (natural_gradient, euclidean_gradient)
       /\ fst natural_gradient = INR (length [1; 3]) * (mean [1; 3] - 0)
       /\ (0 + 0.1 * fst natural_gradient) - mean [1; 3]
          = (1 - 0.1 * INR (length [1; 3])) * (0 - mean [1; 3]).
Proof.
  split; [split; [discriminate | lra]|].
  apply (natural_gradient_points_to_mean 100 [1; 3] 0 7 0.1); [discriminate | lra].
Defined.

Lemma py_last_snoc {A : Type} (xs : list A) (x : A) : py_last (xs ++ [x]) = Some x.
Proof. unfold py_last. now rewrite rev_app_distr. Qed.

Lemma pointer_after_S {A : Type} (array : list A) (bs : Z) (n : nat) (s : Z) :
  pointer_after array bs (S n) s
  = snd (data_generator_step array bs (pointer_after array bs n s)).
Proof.
  revert s. induction n as [|n IH]; intros s; [reflexivity|].
  change (pointer_after array bs (S (S n)) s)
    with (pointer_after array bs (S n) (snd (data_generator_step array bs s))).
  now rewrite IH.
Qed.

Section Settings.
Variable full_data : list R.
Variable batch_size : Z.
Variable do_natural_gradient : bool.
Variable initial_learning_rate : R.

Let run_k := run full_data batch_size do_natural_gradient initial_learning_rate.

Lemma run_well_kept (k : nat) (st : state) :
  run_k k = Some st -> well_kept full_data batch_size k st.
Proof.
  unfold run_k. revert st. induction k as [|k IH]; intros st.
  - cbn [run]. intros [= <-]. unfold well_kept, initial_state. cbn.
    repeat split; reflexivity.
  - cbn [run].
    destruct (run full_data batch_size do_natural_gradient initial_learning_rate k)
      as [st0|]; [|discriminate].
    destruct (IH st0 eq_refl) as (Hm & Ht & Hl & Hseen & Hlm & Hlt & Hll & Hg).
    unfold iteration.
    destruct (calculate_learning_rate _ _ _ _) as [lr|]; [|discriminate].
    destruct (data_generator_step full_data batch_size (generator st0))
      as [sample g'] eqn:Estep.
    destruct (calculate_gradient _ sample _ _) as [[ng eg]|]; [|discriminate].
    rewrite Hseen. rewrite seq_S, map_app. cbn [map Nat.add].
    rewrite py_last_snoc.
    intros [= <-]. unfold well_kept.
    cbn [mu_list tau_list log_likelihoods total_examples_seen current_mu
         current_tau generator].
    rewrite !length_app, Hm, Ht, Hl. cbn [length].
    rewrite !py_last_snoc.
    split; [lia|]. split; [lia|]. split; [lia|].
    split; [|split; [reflexivity|split; [reflexivity|split; [reflexivity|]]]].
    + rewrite (seq_S (S k)), (seq_S k), !map_app. cbn [map Nat.add].
      do 2 f_equal. lia.
    + rewrite pointer_after_S, <- Hg, Estep. reflexivity.
Qed.

Lemma py_last_multiples (k : nat) :
  py_last (map (fun i => (Z.of_nat i * batch_size)%Z) (seq 0 (S k)))
  = Some (Z.of_nat k * batch_size)%Z.
Proof. rewrite seq_S, map_app. cbn [map Nat.add]. apply py_last_snoc. Qed.

Lemma learning_rate_range (k : nat) :
  exists lr : R,
    calculate_learning_rate (INR k) initial_learning_rate default_divisor 1.1
    = Some lr
    /\ (0 < initial_learning_rate -> 0 < lr <= initial_learning_rate).
Proof.
  unfold default_divisor.
  rewrite LearningRateFacts.learning_rate_value by (try apply pos_INR; lra).
  eexists. split; [reflexivity|]. intros Hl.
  assert (Hq : 0 <= INR k / 100)
    by (apply Rle_mult_inv_pos; [apply pos_INR | lra]).
  pose proof (LearningRateFacts.scale_in_range (1 + INR k / 100) 1.1
                ltac:(lra) ltac:(lra)) as [Hpos Hle].
  nra.
Qed.

(** A turn of the loop goes through as soon as the precision is not
    zero and the batch is not empty. *)
Lemma iteration_progress (k : nat) (st : state) :
  well_kept full_data batch_size k st ->
  current_tau st <> 0 ->
  fst (data_generator_step full_data batch_size (generator st)) <> [] ->
  exists st', iteration full_data batch_size do_natural_gradient
                initial_learning_rate k st = Some st'.
Proof.
  intros (_ & _ & _ & Hseen & _) Ht Hsample. unfold iteration.
  destruct (learning_rate_range k) as (lr & -> & _).
  destruct (data_generator_step full_data batch_size (generator st))
    as [sample g'].
  cbn [fst] in Hsample.
  destruct (natural_mu_component (INR (length full_data)) sample
              (current_mu st) (current_tau st) Hsample Ht)
    as (ng & eg & -> & _).
  rewrite Hseen, py_last_multiples. eexists. reflexivity.
Qed.

End Settings.

Lemma full_batch_step {A : Type} (array : list A) (ptr : Z) :
  (1 <= length array)%nat ->
  ptr = 0%Z \/ ptr = Z.of_nat (length array) ->
  data_generator_step array (Z.of_nat (length array)) ptr
  = (array, Z.of_nat (length array)).
Proof.
  intros HL [-> | ->]; unfold data_generator_step.
  - destruct (Z.leb_spec (0 + Z.of_nat (length array) - Z.of_nat (length array)) 0);
      [|lia].
    rewrite Z.add_0_l. change 0%Z with (Z.of_nat 0).
    rewrite (PyFacts.slice_inner array 0 (length array)) by lia.
    now rewrite Nat.sub_0_r, skipn_O, firstn_all.
  - destruct (Z.leb_spec (Z.of_nat (length array) + Z.of_nat (length array)
                          - Z.of_nat (length array)) 0); [lia|].
    rewrite GeneratorMore.slice_past_end, GeneratorMore.slice_whole by lia.
    cbn [app]. f_equal. lia.
Qed.

Lemma full_batch_pointer {A : Type} (array : list A) (k : nat) :
  (1 <= length array)%nat ->
  pointer_after array (Z.of_nat (length array)) k 0 = 0%Z
  \/ pointer_after array (Z.of_nat (length array)) k 0 = Z.of_nat (length array).
Proof.
  intros HL. destruct k as [|k]; [now left|]. right.
  rewrite pointer_after_S.
  assert (H : forall j, pointer_after array (Z.of_nat (length array)) j 0 = 0%Z
                        \/ pointer_after array (Z.of_nat (length array)) j 0
                           = Z.of_nat (length array)).
  { induction j as [|j IH]; [now left|]. right.
    rewrite pointer_after_S, (full_batch_step array _ HL IH). reflexivity. }
  now rewrite (full_batch_step array _ HL (H k)).
Qed.

(** X12.  After [k] iterations that went through, the bookkeeping of the
    loop is consistent: each of [mu_list], [tau_list] and
    [log_likelihoods] has [k + 1] entries, the last of which belongs to
    the current [(current_mu, current_tau)]; [total_examples_seen] is
    [0, batch_size, ..., k * batch_size]; and the generator has handed
    out exactly [k] batches. *)
Theorem loop_bookkeeping (full_data : list R) (batch_size : Z)
    (do_natural_gradient : bool) (initial_learning_rate : R)
    (k : nat) (st : state) :
  run full_data batch_size do_natural_gradient initial_learning_rate k = Some st ->
  length (mu_list st) = S k
  /\ length (tau_list st) = S k
  /\ length (log_likelihoods st) = S k
  /\ total_examples_seen st
     = map (fun i => (Z.of_nat i * batch_size)%Z) (seq 0 (S k))
  /\ py_last (mu_list st) = Some (current_mu st)
  /\ py_last (tau_list st) = Some (current_tau st)
  /\ py_last (log_likelihoods st)
     = Some (calculate_log_likelihood full_data (current_mu st) (current_tau st))
  /\ generator st = pointer_after full_data batch_size k 0.
Proof. apply run_well_kept. Qed.

Lemma loop_bookkeeping_witness :
  exists st : state,
    run [1; 3] 1 false 1e-3 1 = Some st
    /\ (length (mu_list st) = 2%nat
        /\ length (tau_list st) = 2%nat
        /\ length (log_likelihoods st) = 2%nat
        /\ total_examples_seen st
           = map (fun i => (Z.of_nat i * 1)%Z) (seq 0 2)
        /\ py_last (mu_list st) = Some (current_mu st)
        /\ py_last (tau_list st) = Some (current_tau st)
        /\ py_last (log_likelihoods st)
           = Some (calculate_log_likelihood [1; 3] (current_mu st) (current_tau st))
        /\ generator st = pointer_after [1; 3] 1 1 0).
Proof.
  assert (Ht : current_tau (initial_state [1; 3]) <> 0) by (cbn; lra).
  assert (Hs : fst (data_generator_step [1; 3] 1
                      (generator (initial_state [1; 3]))) <> [])
    by (cbn; discriminate).
  destruct (iteration_progress [1; 3] 1 false 1e-3 0 (initial_state [1; 3])
              (run_well_kept [1; 3] 1 false 1e-3 0 _ eq_refl) Ht Hs)
    as [st E].
  exists st. split; [exact E|].
  exact (loop_bookkeeping [1; 3] 1 false 1e-3 1 st E).
Defined.

(** X13.  Natural gradients on the full data set: an iteration goes
    through whenever the current precision is not zero, and it
    multiplies the offset of [current_mu] from the sample mean by
    [1 - learning_rate * n].  With a positive initial learning rate of
    at most [1/n] that factor lies in [0, 1), so [current_mu] moves
    towards the sample mean without overshooting. *)
Theorem natural_full_batch_mean_contracts (full_data : list R)
    (initial_learning_rate : R) (k : nat) (st : state) :
  full_data <> [] ->
  run full_data (Z.of_nat (length full_data)) true initial_learning_rate k
  = Some st ->
  current_tau st <> 0 ->
  exists (learning_rate : R) (st' : state),
    calculate_learning_rate (INR k) initial_learning_rate default_divisor 1.1
    = Some learning_rate
    /\ run full_data (Z.of_nat (length full_data)) true initial_learning_rate (S k)
       = Some st'
    /\ current_mu st' - mean full_data
       = (1 - learning_rate * INR (length full_data))
         * (current_mu st - mean full_data)
    /\ (0 < initial_learning_rate ->
        initial_learning_rate * INR (length full_data) <= 1 ->
        0 <= 1 - learning_rate * INR (length full_data) < 1).
Proof.
  intros Hd Hrun Ht.
  assert (HL : (1 <= length full_data)%nat)
    by (destruct full_data; [congruence | simpl; lia]).
  pose proof (run_well_kept _ _ _ _ _ _ Hrun)
    as (_ & _ & _ & Hseen & _ & _ & _ & Hg).
  destruct (learning_rate_range initial_learning_rate k) as (lr & Hlr & Hrange).
  exists lr. cbn [run]. rewrite Hrun. unfold iteration. rewrite Hlr.
  rewrite (full_batch_step full_data (generator st) HL)
    by (rewrite Hg; apply full_batch_pointer; exact HL).
  destruct (natural_mu_component (INR (length full_data)) full_data
              (current_mu st) (current_tau st) Hd Ht)
    as (ng & eg & -> & Hng).
  rewrite Hseen, py_last_multiples.
  eexists. split; [reflexivity|]. split; [reflexivity|].
  cbn [current_mu]. split; [rewrite Hng; lra|].
  intros Hl Hn. specialize (Hrange Hl).
  assert (0 < INR (length full_data)) by (apply (lt_INR 0); lia).
  nra.
Qed.

Lemma sample_not_empty (full_data : list R) (batch_size : Z) (k : nat) :
  (1 <= batch_size <= Z.of_nat (length full_data))%Z ->
  fst (data_generator_step full_data batch_size
         (pointer_after full_data batch_size k 0)) <> [].
Proof.
  intros Hbs.
  destruct (GeneratorMore.pointer_range_from full_data batch_size Hbs k 0%Z
              ltac:(lia)) as [Hin _].
  destruct (GeneratorFacts.step_cyclic full_data 0 (Z.to_nat batch_size)
              (Z.to_nat (pointer_after full_data batch_size k 0))
              ltac:(lia) ltac:(lia)) as (s' & Hstep & _).
  rewrite !Z2Nat.id in Hstep by lia. rewrite Hstep. cbn [fst].
  destruct (Z.to_nat batch_size) as [|b] eqn:Eb; [lia|]. discriminate.
Qed.

(** X16.  The loop does not guard the precision.  When an update has
    made [current_tau] negative, the log-likelihood recorded for that
    state is NaN, and (for a batch size between 1 and the length of the
    data) the next iteration goes through all the same. *)
Theorem negative_precision_goes_unnoticed (full_data : list R)
    (batch_size : Z) (do_natural_gradient : bool) (initial_learning_rate : R)
    (k : nat) (st : state) :
  full_data <> [] ->
  (1 <= batch_size <= Z.of_nat (length full_data))%Z ->
  run full_data batch_size do_natural_gradient initial_learning_rate k = Some st ->
  current_tau st < 0 ->
  py_last (log_likelihoods st) = Some Np.NaN
  /\ exists st' : state,
       run full_data batch_size do_natural_gradient initial_learning_rate (S k)
       = Some st'.
Proof.
  intros Hd Hbs Hrun Hneg.
  pose proof (run_well_kept _ _ _ _ _ _ Hrun) as Hkept.
  pose proof Hkept as (_ & _ & _ & _ & _ & _ & Hll & Hg).
  split.
  - rewrite Hll. f_equal.
    apply LikelihoodFacts.log_likelihood_negative_precision; assumption.
  - cbn [run]. rewrite Hrun.
    apply (iteration_progress _ _ _ _ k st Hkept); [lra|].
    rewrite Hg. apply sample_not_empty. exact Hbs.
Qed.

Lemma first_euclidean_step_overshoots :
  exists st : state,
    run [99] 1 false 1e-3 1 = Some st /\ current_tau st < 0.
Proof.
  cbn [run]. unfold iteration. change (INR 0) with 0.
  rewrite (LearningRateFacts.learning_rate_at_zero 1e-3 default_divisor 1.1)
    by (unfold default_divisor; lra).
  change (data_generator_step [99] 1 (generator (initial_state [99])))
    with ([99], 1%Z).
  unfold calculate_gradient. cbn [current_tau current_mu initial_state].
  destruct (Req_dec_T 0.1 0) as [E|_]; [lra|].
  cbn [total_examples_seen py_last rev app].
  eexists. split; [reflexivity|].
  cbn [current_tau snd length map np_sum fold_right]. unfold Rsqr. simpl INR.
  lra.
Qed.

Lemma negative_precision_goes_unnoticed_witness :
  exists st : state,
    ([99] <> []
     /\ (1 <= 1 <= Z.of_nat (length [99]))%Z
     /\ run [99] 1 false 1e-3 1 = Some st
     /\ current_tau st < 0)
    /\ (py_last (log_likelihoods st) = Some Np.NaN
        /\ exists st' : state, run [99] 1 false 1e-3 2 = Some st').
Proof.
  destruct first_euclidean_step_overshoots as (st & Hrun & Hneg).
  assert (Hd : [99] <> []) by discriminate.
  assert (Hbs : (1 <= 1 <= Z.of_nat (length [99]))%Z) by (simpl; lia).
  exists st.
  split; [split; [exact Hd | split; [exact Hbs | split; [exact Hrun | exact Hneg]]]|].
  exact (negative_precision_goes_unnoticed [99] 1 false 1e-3 1 st
           Hd Hbs Hrun Hneg).
Defined.

Lemma natural_full_batch_mean_contracts_witness :
  ([1; 3] <> []
   /\ run [1; 3] (Z.of_nat (length [1; 3])) true 1e-3 0
      = Some (initial_state [1; 3])
   /\ current_tau (initial_state [1; 3]) <> 0)
  /\ exists (learning_rate : R) (st' : state),
       calculate_learning_rate (INR 0) 1e-3 default_divisor 1.1
       = Some learning_rate
       /\ run [1; 3] (Z.of_nat (length [1; 3])) true 1e-3 1 = Some st'
       /\ current_mu st' - mean [1; 3]
          = (1 - learning_rate * INR (length [1; 3]))
            * (current_mu (initial_state [1; 3]) - mean [1; 3])
       /\ (0 < 1e-3 -> 1e-3 * INR (length [1; 3]) <= 1 ->
           0 <= 1 - learning_rate * INR (length [1; 3]) < 1).
Proof.
  assert (Hd : [1; 3] <> []) by discriminate.
  assert (Hrun : run [1; 3] (Z.of_nat (length [1; 3])) true 1e-3 0
                 = Some (initial_state [1; 3])) by reflexivity.
  assert (Ht : current_tau (initial_state [1; 3]) <> 0) by (cbn; lra).
  split; [split; [exact Hd | split; [exact Hrun | exact Ht]]|].
  exact (natural_full_batch_mean_contracts [1; 3] 1e-3 0 (initial_state [1; 3])
           Hd Hrun Ht).
Defined.

End LoopFacts.

(** ** The exponential-family form of the Gaussian *)

Module ExpFamFacts.
Import Np Scipy ExpFam.
Open Scope R_scope.

Lemma weigh_last_row (e : R) (f : R -> R) (xs : list R) :
  map (fun ra => e * fst ra + snd ra)
      (combine (map f xs) (repeat 0 (length xs)))
  = map (fun xi => e * f xi + 0) xs.
Proof.
  induction xs as [|x xs IH]; cbn [map combine repeat length]; [reflexivity|].
  now rewrite IH.
Qed.

Lemma weigh_row (e : R) (g : R -> R) (xs : list R) :
  map (fun ra => e * fst ra + snd ra) (combine xs (map g xs))
  = map (fun xi => e * xi + g xi) xs.
Proof.
  induction xs as [|x xs IH]; cbn [map combine]; [reflexivity|].
  now rewrite IH.
Qed.

(** The product of two natural parameters with the sufficient statistics
    of the Gaussian. *)
Lemma matmul_T_func (e0 e1 : R) (x : list R) :
  matmul [e0; e1] (T_func x)
  = Some (map (fun xi => e0 * xi + (e1 * (xi * xi) + 0)) x).
Proof.
  unfold matmul, T_func. cbn [hd weighted_rows].
  rewrite length_map, Nat.eqb_refl.
  rewrite weigh_last_row, weigh_row. reflexivity.
Qed.

Lemma density_as_exp (mu sigma xi : R) :
  0 < sigma ->
  std_norm_pdf ((xi - mu) / sigma) / sigma
  = exp (- ((xi - mu) / sigma * ((xi - mu) / sigma)) / 2
         - ln (2 * PI) / 2 - ln sigma).
Proof.
  intros Hs. unfold std_norm_pdf.
  assert (H2pi : 0 < 2 * PI) by (pose proof PI_RGT_0; lra).
  unfold Rminus. rewrite !exp_plus, !exp_Ropp.
  rewrite <- (LikelihoodFacts.ln_sqrt_half (2 * PI) H2pi).
  rewrite exp_ln by now apply sqrt_lt_R0.
  rewrite exp_ln by exact Hs.
  reflexivity.
Qed.

(** X14.  For a positive [sigma] the exponential-family representation
    of the notebook (log base measure, sufficient statistics, natural
    parameters and log partition of the Gaussian) reproduces the moment
    density: on every array [x] the two curves that [plot_pdf] draws are
    the same, both equal to [norm.pdf(x, loc=mu, scale=sigma)]. *)
Theorem exp_fam_curve_is_normal_pdf (mu sigma : R) (x : list R) :
  0 < sigma ->
  exists (eta : list R) (A : float),
    natural_parameters mu sigma = Some eta
    /\ log_partition mu sigma = Some A
    /\ plot_pdf x log_base_measure_func T_func eta A
         (normal_pdf_function mu sigma)
       = Some (norm_pdf x mu sigma, norm_pdf x mu sigma).
Proof.
  intros Hs. unfold natural_parameters, log_partition.
  assert (Hss : sigma * sigma <> 0) by nra.
  destruct (Req_dec_T (sigma * sigma) 0) as [E|_]; [contradiction|].
  destruct (Req_dec_T (2 * sigma * sigma) 0) as [E|_]; [nra|].
  eexists. eexists. split; [reflexivity|]. split; [reflexivity|].
  unfold plot_pdf. rewrite matmul_T_func. rewrite !map_map.
  unfold normal_pdf_function. f_equal. f_equal.
  unfold norm_pdf. apply map_ext. intros xi.
  destruct (Rlt_dec 0 sigma) as [_|N]; [|contradiction].
  rewrite NpFacts.log_fin by exact Hs. cbn [add np_sub np_exp].
  f_equal. rewrite density_as_exp by exact Hs. f_equal.
  assert (Hh : log_base_measure_func x = - (ln (2 * PI) / 2))
    by (unfold log_base_measure_func; lra).
  assert (H05 : - 0.5 / (sigma * sigma) = - (1 / 2) / (sigma * sigma))
    by (f_equal; lra).
  rewrite Hh, H05. field. lra.
Qed.

Lemma exp_fam_curve_is_normal_pdf_witness :
  0 < 3
  /\ exists (eta : list R) (A : float),
       natural_parameters (-1) 3 = Some eta
       /\ log_partition (-1) 3 = Some A
       /\ plot_pdf [-8; -1; 6] log_base_measure_func T_func eta A
            (normal_pdf_function (-1) 3)
          = Some (norm_pdf [-8; -1; 6] (-1) 3, norm_pdf [-8; -1; 6] (-1) 3).
Proof.
  split; [lra | apply (exp_fam_curve_is_normal_pdf (-1) 3 [-8; -1; 6]); lra].
Defined.

(** X15.  The natural parameters determine the moment parameters: two
    Gaussians with positive standard deviations that have the same
    natural parameters have the same mean and standard deviation; the
    second natural parameter is always negative. *)
Theorem natural_parameters_identify (mu1 sigma1 mu2 sigma2 : R) :
  0 < sigma1 -> 0 < sigma2 ->
  natural_parameters mu1 sigma1 = natural_parameters mu2 sigma2 ->
  mu1 = mu2 /\ sigma1 = sigma2
  /\ exists e0 e1 : R, natural_parameters mu1 sigma1 = Some [e0; e1] /\ e1 < 0.
Proof.
  intros H1 H2. unfold natural_parameters.
  destruct (Req_dec_T (sigma1 * sigma1) 0) as [E|_]; [nra|].
  destruct (Req_dec_T (sigma2 * sigma2) 0) as [E|_]; [nra|].
  intros [= E0 E1].
  assert (Hq1 : 0 < sigma1 * sigma1) by nra.
  assert (Hq2 : 0 < sigma2 * sigma2) by nra.
  assert (Hsq : sigma1 * sigma1 = sigma2 * sigma2).
  { apply Rinv_eq_reg. unfold Rdiv in E1. lra. }
  assert (Hsig : sigma1 = sigma2) by nra.
  split; [|split; [exact Hsig|]].
  - rewrite Hsq in E0. unfold Rdiv in E0.
    apply Rmult_eq_reg_r in E0; [exact E0|].
    apply Rinv_neq_0_compat. lra.
  - eexists. eexists. split; [reflexivity|].
    assert (0 < / (sigma1 * sigma1)) by now apply Rinv_0_lt_compat.
    unfold Rdiv. lra.
Qed.

Lemma natural_parameters_identify_witness :
  (0 < 3 /\ 0 < 3 /\ natural_parameters (-1) 3 = natural_parameters (-1) 3)
  /\ (-1 = -1 /\ 3 = 3
      /\ exists e0 e1 : R, natural_parameters (-1) 3 = Some [e0; e1] /\ e1 < 0).
Proof.
  split; [split; [lra | split; [lra | reflexivity]]|].
  apply (natural_parameters_identify (-1) 3 (-1) 3); [lra | lra | reflexivity].
Defined.

End ExpFamFacts.
